(** * httpcore.adapters.redirects: the redirect adapter

    A shallow embedding of [src/httpcore/adapters/redirects.py]
    ([RedirectAdapter]) and the properties its specification states.

    Python objects that the adapter mutates or shares ([Headers] objects,
    the [history] list, the [seen_urls] set, the attributes [history] and
    [next] of a [Response]) live in an explicit store, [World], and are
    named by references; code that raises returns [Raised]. *)

From Stdlib Require Import ZArith Ascii String List Lia.
From stdpp Require Import base decidable option list gmap strings.

Local Open Scope string_scope.
Local Open Scope list_scope.

(** ** Text helpers (Python [str] methods used by the source) *)

(** [s.startswith(p)] *)
Fixpoint startswith (p s : string) : bool :=
  match p, s with
  | EmptyString, _ => true
  | String a p', String b s' => if Ascii.eqb a b then startswith p' s' else false
  | String _ _, EmptyString => false
  end.

(** Truth value of a [str]: the empty string is falsy. *)
Definition truthy (s : string) : bool :=
  match s with EmptyString => false | String _ _ => true end.

Definition lower_ascii (c : ascii) : ascii :=
  let n := nat_of_ascii c in
  if (65 <=? n)%nat && (n <=? 90)%nat then ascii_of_nat (n + 32) else c.

(** [s.lower()] on ASCII text. *)
Fixpoint lower (s : string) : string :=
  match s with
  | EmptyString => EmptyString
  | String c s' => String (lower_ascii c) (lower s')
  end.

(** [sep.join(parts)] *)
Fixpoint join (sep : string) (parts : list string) : string :=
  match parts with
  | [] => ""
  | [x] => x
  | x :: rest => x +:+ sep +:+ join sep rest
  end.

(** ** Data model *)

Abbreviation ref := nat (only parsing).

(** Modelled from the spec: [Headers] ([..models] is not among the
    sources), "ordered, case-insensitive multimap" with "deletion by
    name". An object holds the header lines in order; names are compared
    in lower case. *)
Abbreviation Headers := (list (string * string)) (only parsing).

Definition same_name (name : string) (line : string * string) : bool :=
  String.eqb (lower (fst line)) (lower name).

(** [headers[name]]: the values under [name], comma-joined; [None] stands
    for the [KeyError] of an absent name. *)
Definition Headers_getitem (h : Headers) (name : string) : option string :=
  match List.filter (same_name name) h with
  | [] => None
  | found => Some (join ", " (List.map snd found))
  end.

(** What [del headers[name]] leaves in the object. *)
Definition Headers_without (name : string) (h : Headers) : Headers :=
  List.filter (fun line => negb (same_name name line)) h.

(** Modelled from the spec: the origin of a URL, "scheme + host + port". *)
Record Origin := { origin_scheme : string; origin_host : string; origin_port : Z }.

Global Instance Origin_eq_dec : EqDecision Origin.
Proof. solve_decision. Defined.

(** The six-field named tuple that [urllib.parse.urlparse] returns. *)
Record ParseResult := {
  scheme : string; netloc : string; path : string;
  params : string; query : string; fragment : string }.

(** [parsed._replace(fragment=f)] *)
Definition replace_fragment (parsed : ParseResult) (f : string) : ParseResult :=
  {| scheme := scheme parsed; netloc := netloc parsed; path := path parsed;
     params := params parsed; query := query parsed; fragment := f |}.

(** The collaborators the adapter imports and the spec lists as external
    interfaces: the [URL] model, the URL utilities and the redirect
    classification. The adapter is verified against any implementation.
    The utilities are total functions here: a text on which [urlparse] or
    [URL(...)] raises ([ValueError] for a malformed bracketed host) is
    outside the model, and nothing below speaks of errors of the
    utilities. *)
Class Collaborators := {
  URL : Type;
  URL_eq_dec :: EqDecision URL;
  URL_countable :: Countable URL;
  URL_new : string -> URL;                 (* URL(url) *)
  url_str : URL -> string;                 (* str(url) *)
  url_scheme : URL -> string;              (* url.scheme *)
  url_fragment : URL -> string;            (* url.fragment *)
  url_origin : URL -> Origin;              (* url.origin *)
  urlparse : string -> ParseResult;
  geturl : ParseResult -> string;          (* parsed.geturl() *)
  urljoin : string -> string -> string;
  requote_uri : string -> string;
  is_redirect_code : Z -> bool             (* codes.is_redirect *)
}.

(** Modelled from the spec: the status codes "303 (see other)", "302
    (found)" and "301 (moved permanently)" of [..status_codes]. *)
Module codes.
Definition see_other : Z := 303.
Definition found : Z := 302.
Definition moved_permanently : Z := 301.
End codes.

(** Modelled from the spec: a request body is a "byte sequence or
    streaming marker meaning the body cannot be safely replayed". *)
Inductive Body := Bytes (data : list Byte.byte) | Streaming.

Inductive exn := TooManyRedirects | RedirectLoop | RedirectBodyUnavailable | KeyError.

Inductive outcome (A : Type) := Returned (a : A) | Raised (e : exn).
Arguments Returned {A} a.
Arguments Raised {A} e.

(** How a computation ended, without its value: [None] for a return. *)
Definition outcome_tag {A} (o : outcome A) : option exn :=
  match o with Returned _ => None | Raised e => Some e end.

(** The same for a bounded run: the outer [None] is the bound reached. *)
Definition run_tag {A W} (run : option (outcome A * W)) : option (option exn) :=
  match run with Some (o, _) => Some (outcome_tag o) | None => None end.

Section Adapter.
Context {C : Collaborators}.

(** Modelled from the spec: [Request] and [Response] of [..models].
    [headers] of a request names a [Headers] object of the store. *)
Record Request := {
  method : string; url : URL; headers : ref; body : Body }.

Definition is_streaming (request : Request) : bool :=
  match body request with Streaming => true | Bytes _ => false end.

(** The part of a [Response] that the transport fills in and nobody
    changes afterwards. *)
Record Response := { status_code : Z; resp_headers : Headers }.

(** Modelled from the spec: "a flag is-a-redirect derived from status code". *)
Definition is_redirect (response : Response) : bool :=
  is_redirect_code (status_code response).

(** *** The request transformation rules without effects *)

Definition redirect_method (request : Request) (response : Response) : string :=
  let method := method request in
  let method :=
    if Z.eqb (status_code response) codes.see_other && negb (String.eqb method "HEAD")
    then "GET" else method in
  let method :=
    if Z.eqb (status_code response) codes.found && negb (String.eqb method "HEAD")
    then "GET" else method in
  let method :=
    if Z.eqb (status_code response) codes.moved_permanently && String.eqb method "POST"
    then "GET" else method in
  method.

(** Lines 87 to 94: the target of the redirect, parsed, after a target
    without scheme got the scheme of the request and a target without
    fragment the fragment of the request. *)
Definition redirect_target (request : Request) (location : string) : ParseResult :=
  let location :=
    if startswith "//" location
    then url_scheme (url request) +:+ ":" +:+ location else location in
  let parsed := urlparse location in
  if String.eqb (fragment parsed) "" && truthy (url_fragment (url request))
  then replace_fragment parsed (url_fragment (url request)) else parsed.

Definition redirect_url (request : Request) (response : Response) : outcome URL :=
  match Headers_getitem (resp_headers response) "Location" with
  | None => Raised KeyError
  | Some location =>
    let parsed := redirect_target request location in
    let url' := geturl parsed in
    let url' :=
      if negb (truthy (netloc parsed))
      then urljoin (url_str (url request)) (requote_uri url')
      else requote_uri url' in
    Returned (URL_new url')
  end.

Definition redirect_body (request : Request) (method' : string) : outcome (list Byte.byte) :=
  if negb (String.eqb method' (method request)) && String.eqb method' "GET"
  then Returned []
  else if is_streaming request then Raised RedirectBodyUnavailable
  else match body request with
       | Bytes data => Returned data
       | Streaming => Raised RedirectBodyUnavailable
       end.


(** *** The transport *)

(** [self.dispatch]: the adapter below this one. A send reads the request
    (and the [Headers] objects it names), may change the state of the
    network, and answers with a new response. *)
Class Transport := {
  TState : Type;
  Options : Type;
  dispatch_send : list Headers -> Request -> Options -> TState -> Response * TState }.

Context {T : Transport}.

(** [self.max_redirects] *)
Variable max_redirects : Z.

(** *** The store *)

(** [functools.partial(self.send, request=request, **next_options)]: the
    keyword arguments bound at line 38. [seen_urls] and [history] are the
    very objects of the suspended call, not copies. *)
Record Partial := {
  p_request : Request; p_options : Options; p_seen_urls : ref; p_history : ref }.

Record World := {
  hdrs : list Headers;            (* Headers objects *)
  lists : list (list ref);        (* list objects; their items name responses *)
  sets : list (gset URL);         (* set objects *)
  resps : list Response;          (* Response objects, as received *)
  history_attr : gmap ref ref;    (* response.history, a list object *)
  next_attr : gmap ref Partial;   (* response.next *)
  net : TState;                   (* the transport's own state *)
  sent : list Request;            (* trace: requests handed to the transport *)
  built : list Request            (* trace: requests derived from redirects *)
}.

Definition upd_hdrs (f : list Headers -> list Headers) (w : World) : World :=
  {| hdrs := f (hdrs w); lists := lists w; sets := sets w; resps := resps w;
     history_attr := history_attr w; next_attr := next_attr w;
     net := net w; sent := sent w; built := built w |}.

Definition upd_lists (f : list (list ref) -> list (list ref)) (w : World) : World :=
  {| hdrs := hdrs w; lists := f (lists w); sets := sets w; resps := resps w;
     history_attr := history_attr w; next_attr := next_attr w;
     net := net w; sent := sent w; built := built w |}.

Definition upd_sets (f : list (gset URL) -> list (gset URL)) (w : World) : World :=
  {| hdrs := hdrs w; lists := lists w; sets := f (sets w); resps := resps w;
     history_attr := history_attr w; next_attr := next_attr w;
     net := net w; sent := sent w; built := built w |}.

Definition upd_history_attr (f : gmap ref ref -> gmap ref ref) (w : World) : World :=
  {| hdrs := hdrs w; lists := lists w; sets := sets w; resps := resps w;
     history_attr := f (history_attr w); next_attr := next_attr w;
     net := net w; sent := sent w; built := built w |}.

Definition upd_next_attr (f : gmap ref Partial -> gmap ref Partial) (w : World) : World :=
  {| hdrs := hdrs w; lists := lists w; sets := sets w; resps := resps w;
     history_attr := history_attr w; next_attr := f (next_attr w);
     net := net w; sent := sent w; built := built w |}.

Definition upd_built (f : list Request -> list Request) (w : World) : World :=
  {| hdrs := hdrs w; lists := lists w; sets := sets w; resps := resps w;
     history_attr := history_attr w; next_attr := next_attr w;
     net := net w; sent := sent w; built := f (built w) |}.

(** Effectful code: a state transformer that returns or raises. What was
    written to the store before an exception stays written. *)
Definition M (A : Type) : Type := World -> outcome A * World.

Definition ret {A} (a : A) : M A := fun w => (Returned a, w).
Definition raise {A} (e : exn) : M A := fun w => (Raised e, w).
Definition bind {A B} (m : M A) (k : A -> M B) : M B :=
  fun w => match m w with
           | (Returned a, w') => k a w'
           | (Raised e, w') => (Raised e, w')
           end.
Definition lift {A} (o : outcome A) : M A := fun w => (o, w).

Notation "x <~ m ;; k" := (bind m (fun x => k))
  (at level 100, m at next level, right associativity).
Notation "m ;;; k" := (bind m (fun _ => k))
  (at level 100, right associativity).

(** [Headers(h)]: a new object with the lines of [h]. *)
Definition Headers_copy (h : ref) : M ref := fun w =>
  (Returned (length (hdrs w)),
   upd_hdrs (fun hs => hs ++ [default [] (hs !! h)]) w).

(** [del headers[name]] *)
Definition Headers_delitem (h : ref) (name : string) : M unit := fun w =>
  (Returned tt,
   upd_hdrs (fun hs => <[h := Headers_without name (default [] (hs !! h))]> hs) w).

(** [[]], a new empty list object. *)
Definition list_new : M ref := fun w =>
  (Returned (length (lists w)), upd_lists (fun ls => ls ++ [[]]) w).

(** [list(l)]: a new list object with the items of [l]. *)
Definition list_copy (l : ref) : M ref := fun w =>
  (Returned (length (lists w)),
   upd_lists (fun ls => ls ++ [default [] (ls !! l)]) w).

(** [l.append(x)] *)
Definition list_append (l : ref) (x : ref) : M unit := fun w =>
  (Returned tt, upd_lists (fun ls => <[l := default [] (ls !! l) ++ [x]]> ls) w).

(** [len(l)] *)
Definition list_len (l : ref) : M nat := fun w =>
  (Returned (length (default [] (lists w !! l))), w).

(** [set()], a new empty set object. *)
Definition set_new : M ref := fun w =>
  (Returned (length (sets w)), upd_sets (fun ss => ss ++ [∅]) w).

(** [s.add(u)] *)
Definition set_add (s : ref) (u : URL) : M unit := fun w =>
  (Returned tt, upd_sets (fun ss => <[s := {[u]} ∪ default ∅ (ss !! s)]> ss) w).

(** [u in s] *)
Definition set_contains (s : ref) (u : URL) : M bool := fun w =>
  (Returned (bool_decide (u ∈ default ∅ (sets w !! s))), w).

(** [response.history = l] *)
Definition setattr_history (r l : ref) : M unit := fun w =>
  (Returned tt, upd_history_attr (fun m => <[r := l]> m) w).

(** [response.next = p] *)
Definition setattr_next (r : ref) (p : Partial) : M unit := fun w =>
  (Returned tt, upd_next_attr (fun m => <[r := p]> m) w).

(** [await self.dispatch.send(request, **options)]: the request goes on the
    wire and the response becomes a new object of the store. *)
Definition dispatch (request : Request) (options : Options) : M (ref * Response) := fun w =>
  let (response, net') := dispatch_send (hdrs w) request options (net w) in
  (Returned (length (resps w), response),
   {| hdrs := hdrs w; lists := lists w; sets := sets w;
      resps := resps w ++ [response];
      history_attr := history_attr w; next_attr := next_attr w;
      net := net'; sent := sent w ++ [request]; built := built w |}).

(** Trace only: note a request derived from a redirect. *)
Definition note_built (request : Request) : M unit := fun w =>
  (Returned tt, upd_built (fun l => l ++ [request]) w).

(** *** The request transformation rules with effects *)

Definition redirect_headers (request : Request) (url' : URL) : M ref :=
  headers' <~ Headers_copy (headers request) ;;
  (if negb (bool_decide (url_origin url' = url_origin (url request)))
   then Headers_delitem headers' "Authorization" else ret tt) ;;;
  ret headers'.

Definition build_redirect_request (request : Request) (response : Response) : M Request :=
  let method' := redirect_method request response in
  url' <~ lift (redirect_url request response) ;;
  headers' <~ redirect_headers request url' ;;
  body' <~ lift (redirect_body request method') ;;
  let request' :=
    {| method := method'; url := url'; headers := headers'; body := Bytes body' |} in
  note_built request' ;;;
  ret request'.

(** *** The controller loop *)

(** How one pass through the body of [while True] ends: at a [break], or
    at the end of the body with the request of the next pass. *)
Inductive step := Break (response : ref) | Continue (request : Request).

(** Lines 28 to 44. *)
Definition loop_body (allow_redirects : bool) (options : Options)
    (history seen_urls : ref) (request : Request) : M step :=
  sent_ <~ dispatch request options ;;
  let response := fst sent_ in
  copy <~ list_copy history ;;
  setattr_history response copy ;;;
  if negb (is_redirect (snd sent_)) then ret (Break response) else
  list_append history response ;;;
  request' <~ build_redirect_request request (snd sent_) ;;
  if negb allow_redirects then
    setattr_next response
      {| p_request := request'; p_options := options;
         p_seen_urls := seen_urls; p_history := history |} ;;;
    ret (Break response)
  else
    n <~ list_len history ;;
    if (max_redirects <? Z.of_nat n)%Z then raise TooManyRedirects else
    seen <~ set_contains seen_urls (url request') ;;
    if (seen : bool) then raise RedirectLoop else
    set_add seen_urls (url request') ;;;
    ret (Continue request').

(** [while True]: [fuel] bounds the number of passes; [None] means the
    bound was reached before the loop ended. *)
Fixpoint send_loop (fuel : nat) (allow_redirects : bool) (options : Options)
    (history seen_urls : ref) (request : Request) (w : World)
    : option (outcome ref * World) :=
  match fuel with
  | O => None
  | S fuel' =>
    match loop_body allow_redirects options history seen_urls request w with
    | (Returned (Break response), w') => Some (Returned response, w')
    | (Returned (Continue request'), w') =>
        send_loop fuel' allow_redirects options history seen_urls request' w'
    | (Raised e, w') => Some (Raised e, w')
    end
  end.

(** Lines 22 to 25: the keyword options with their defaults. An absent
    [history] or [seen_urls] is a new empty object. *)
Definition send_prelude (request : Request) (history seen_urls : option ref)
    : M (ref * ref) :=
  history' <~ match history with Some h => ret h | None => list_new end ;;
  seen_urls' <~ match seen_urls with Some s => ret s | None => set_new end ;;
  set_add seen_urls' (url request) ;;;
  ret (history', seen_urls').

(** [RedirectAdapter.send] *)
Definition send (fuel : nat) (request : Request) (allow_redirects : bool)
    (history seen_urls : option ref) (options : Options) (w : World)
    : option (outcome ref * World) :=
  match send_prelude request history seen_urls w with
  | (Returned (history', seen_urls'), w') =>
      send_loop fuel allow_redirects options history' seen_urls' request w'
  | (Raised e, w') => Some (Raised e, w')
  end.

(** Calling [response.next(allow_redirects=...)]: [send] with the bound
    keyword arguments. Line 22 popped [allow_redirects] from the options
    before they were bound, so a call without it follows redirects. *)
Definition call_next (fuel : nat) (p : Partial) (allow_redirects : bool) (w : World)
    : option (outcome ref * World) :=
  send fuel (p_request p) allow_redirects
       (Some (p_history p)) (Some (p_seen_urls p)) (p_options p) w.

(** *** Auxiliary definitions for the statements

    The lines [redirect_headers] leaves in the new object. *)
Definition derived_lines (request : Request) (url' : URL) (lines : Headers) : Headers :=
  if bool_decide (url_origin url' = url_origin (url request))
  then lines else Headers_without "Authorization" lines.

(** The store after lines 28 and 29: the response received and stamped
    with a copy of the history. *)
Definition received (history : ref) (request : Request) (options : Options)
    (w : World) : World :=
  let answer := dispatch_send (hdrs w) request options (net w) in
  {| hdrs := hdrs w;
     lists := lists w ++ [default [] (lists w !! history)];
     sets := sets w;
     resps := resps w ++ [fst answer];
     history_attr := <[length (resps w) := length (lists w)]> (history_attr w);
     next_attr := next_attr w;
     net := snd answer;
     sent := sent w ++ [request];
     built := built w |}.

(** The histories of the chain with history object [h] are stamped
    copies: each response in [h] exists, and its [history] attribute names
    a list object other than [h] that holds the responses before it in
    [h], in order. *)
Definition stamped (w : World) (h : ref) : Prop :=
  exists items,
    lists w !! h = Some items
    /\ forall i r, items !! i = Some r ->
         r < length (resps w)
         /\ exists l, history_attr w !! r = Some l /\ l ≠ h
                      /\ lists w !! l = Some (take i items).

(** The store without the [next] attributes. Nothing in the adapter reads
    [response.next], so two stores that differ in these attributes only
    are the same to it. *)
Definition forget_next (w : World) : World := upd_next_attr (fun _ => ∅) w.

(** Code that does not read the [next] attributes. *)
Definition next_blind {A} (m : M A) : Prop :=
  forall w1 w2, forget_next w1 = forget_next w2 ->
    fst (m w1) = fst (m w2) /\ forget_next (snd (m w1)) = forget_next (snd (m w2)).

(** Only responses that exist carry a continuation. *)
Definition next_fresh (w : World) : Prop :=
  forall r p, next_attr w !! r = Some p -> r < length (resps w).

(** *** A caller that steps through a chain by hand

    Not part of the adapter: the caller of manual mode, who calls
    [response.next(allow_redirects=False)] as long as the response carries
    a continuation, [hops] times at most. *)
Fixpoint step_on (hops fuel : nat) (out : outcome ref) (w : World)
    : option (outcome ref * World) :=
  match out with
  | Raised e => Some (Raised e, w)
  | Returned r =>
      match next_attr w !! r, hops with
      | Some p, S hops' =>
          match call_next fuel p false w with
          | Some (out', w') => step_on hops' fuel out' w'
          | None => None
          end
      | _, _ => Some (Returned r, w)
      end
  end.

Definition step_through (hops fuel : nat) (request : Request) (options : Options)
    (w : World) : option (outcome ref * World) :=
  match send fuel request false None None options w with
  | Some (out, w') => step_on hops fuel out w'
  | None => None
  end.

(** The request [q] carries credentials: its [Headers] object has an
    Authorization line. *)
Definition carries_authorization (w : World) (q : Request) : Prop :=
  Headers_getitem (default [] (hdrs w !! headers q)) "Authorization" ≠ None.

(** What the transport answers to [requests], sent one after the other
    from the state [st]: the responses in order and the state afterwards.
    [stored] are the [Headers] objects of the store at the end; the first
    [k] of them exist when the first request is sent, and one more with
    every further request. *)
Fixpoint answers (options : Options) (stored : list Headers) (k : nat)
    (st : TState) (requests : list Request) : list Response * TState :=
  match requests with
  | [] => ([], st)
  | request :: rest =>
      let answer := dispatch_send (take k stored) request options st in
      let later := answers options stored (S k) (snd answer) rest in
      (fst answer :: fst later, snd later)
  end.

(** *** The rules as the specification words them

    Used only to compare the code with the specification. *)

(** The method rule: the first of the three cases that applies decides. *)
Definition method_rule (status : Z) (m : string) : string :=
  if Z.eqb status 303 && negb (String.eqb m "HEAD") then "GET"
  else if Z.eqb status 302 && negb (String.eqb m "HEAD") then "GET"
  else if Z.eqb status 301 && String.eqb m "POST" then "GET"
  else m.

(** The URL rule for a target without authority: "resolve it against the
    current request's URL, then percent-re-encode the result". *)
Definition resolve_then_requote (request : Request) (target : ParseResult) : URL :=
  URL_new (requote_uri (urljoin (url_str (url request)) (geturl target))).

(** What the code does for such a target: re-encode, then resolve. *)
Definition requote_then_resolve (request : Request) (target : ParseResult) : URL :=
  URL_new (urljoin (url_str (url request)) (requote_uri (geturl target))).

End Adapter.

(** ** An implementation of the collaborators

    The library functions the source imports, over ASCII text, so that the
    adapter can be run on examples. [urlparse], [geturl] and [urljoin]
    follow [urllib.parse] of the Python standard library (without its
    handling of [bytes] arguments and its [ValueError] for a malformed
    bracketed host). *)
Module PyLib.

(** The longest prefix free of the characters [p] accepts, and the rest. *)
Fixpoint break (p : ascii -> bool) (s : string) : string * string :=
  match s with
  | EmptyString => ("", "")
  | String c s' =>
      if p c then ("", s)
      else let (a, b) := break p s' in (String c a, b)
  end.

Definition is_char (c : ascii) : ascii -> bool := Ascii.eqb c.

Definition one_of (cs : string) (c : ascii) : bool :=
  existsb (Ascii.eqb c) (list_ascii_of_string cs).

Definition tail (s : string) : string :=
  match s with EmptyString => "" | String _ s' => s' end.

(** [s.split(c)] *)
Fixpoint split (c : ascii) (s : string) : list string :=
  match s with
  | EmptyString => [""]
  | String d s' =>
      if Ascii.eqb c d then "" :: split c s'
      else match split c s' with
           | [] => [String d ""]
           | x :: rest => String d x :: rest
           end
  end.

Definition is_alpha (c : ascii) : bool :=
  let n := nat_of_ascii c in
  ((65 <=? n) && (n <=? 90) || (97 <=? n) && (n <=? 122))%nat.

Definition is_digit (c : ascii) : bool :=
  let n := nat_of_ascii c in ((48 <=? n) && (n <=? 57))%nat.

Definition all_chars (p : ascii -> bool) (s : string) : bool :=
  forallb p (list_ascii_of_string s).

Definition mem (x : string) (l : list string) : bool := existsb (String.eqb x) l.

Definition uses_relative : list string :=
  [""; "ftp"; "http"; "gopher"; "nntp"; "imap"; "wais"; "file"; "https";
   "shttp"; "mms"; "prospero"; "rtsp"; "rtspu"; "sftp"; "svn"; "svn+ssh";
   "ws"; "wss"].

Definition uses_netloc : list string :=
  [""; "ftp"; "http"; "gopher"; "nntp"; "telnet"; "imap"; "wais"; "file";
   "mms"; "https"; "shttp"; "snews"; "prospero"; "rtsp"; "rtspu"; "rsync";
   "svn"; "svn+ssh"; "sftp"; "nfs"; "git"; "git+ssh"; "ws"; "wss"].

Definition uses_params : list string :=
  [""; "ftp"; "hdl"; "prospero"; "http"; "imap"; "https"; "shttp"; "rtsp";
   "rtspu"; "sip"; "sips"; "mms"; "sftp"; "tel"].

Definition scheme_char (c : ascii) : bool :=
  is_alpha c || is_digit c || one_of "+-." c.

(** The scheme of [url_] (or [default_scheme]) and what follows its colon. *)
Definition split_scheme (default_scheme url_ : string) : string * string :=
  match break (is_char ":") url_ with
  | (String c pre, String _ rest) =>
      if is_alpha c && all_chars scheme_char (String c pre)
      then (lower (String c pre), rest)
      else (default_scheme, url_)
  | _ => (default_scheme, url_)
  end.

Record SplitResult := {
  s_scheme : string; s_netloc : string; s_path : string;
  s_query : string; s_fragment : string }.

(** [urlsplit(url, scheme)] *)
Definition urlsplit (url_ default_scheme : string) : SplitResult :=
  let (scheme_, url_) := split_scheme default_scheme url_ in
  let (netloc_, url_) :=
    if startswith "//" url_ then break (one_of "/?#") (tail (tail url_))
    else ("", url_) in
  let (url_, fragment_) :=
    match break (is_char "#") url_ with
    | (a, String _ b) => (a, b)
    | (a, EmptyString) => (a, "")
    end in
  let (url_, query_) :=
    match break (is_char "?") url_ with
    | (a, String _ b) => (a, b)
    | (a, EmptyString) => (a, "")
    end in
  {| s_scheme := scheme_; s_netloc := netloc_; s_path := url_;
     s_query := query_; s_fragment := fragment_ |}.

(** [_splitparams(url)]: the parameters of the last path segment. *)
Definition splitparams (url_ : string) : string * string :=
  let segments := split "/" url_ in
  let dirs := removelast segments in
  match break (is_char ";") (List.last segments "") with
  | (a, String _ b) => (join "/" (dirs ++ [a]), b)
  | (_, EmptyString) => (url_, "")
  end.

(** [urlparse(url, scheme)] *)
Definition urlparse_with (url_ default_scheme : string) : ParseResult :=
  let parts := urlsplit url_ default_scheme in
  let (path_, params_) :=
    if mem (s_scheme parts) uses_params then splitparams (s_path parts)
    else (s_path parts, "") in
  {| scheme := s_scheme parts; netloc := s_netloc parts; path := path_;
     params := params_; query := s_query parts; fragment := s_fragment parts |}.

Definition urlparse (url_ : string) : ParseResult := urlparse_with url_ "".

(** [urlunsplit((scheme, netloc, url, query, fragment))] *)
Definition urlunsplit (scheme_ netloc_ url_ query_ fragment_ : string) : string :=
  let url_ :=
    if truthy netloc_
       || (truthy scheme_ && mem scheme_ uses_netloc && negb (startswith "//" url_))
    then "//" +:+ netloc_ +:+
         (if truthy url_ && negb (startswith "/" url_) then "/" +:+ url_ else url_)
    else url_ in
  let url_ := if truthy scheme_ then scheme_ +:+ ":" +:+ url_ else url_ in
  let url_ := if truthy query_ then url_ +:+ "?" +:+ query_ else url_ in
  let url_ := if truthy fragment_ then url_ +:+ "#" +:+ fragment_ else url_ in
  url_.

(** [urlunparse(parsed)], which is [parsed.geturl()] *)
Definition urlunparse (p : ParseResult) : string :=
  let url_ := if truthy (params p) then path p +:+ ";" +:+ params p else path p in
  urlunsplit (scheme p) (netloc p) url_ (query p) (fragment p).

(** The loop of [urljoin] over the path segments: [..] drops the segment
    before it, [.] is skipped. [resolved] is kept in reverse. *)
Fixpoint resolve_segments (segments resolved : list string) : list string :=
  match segments with
  | [] => rev resolved
  | seg :: rest =>
      if String.eqb seg ".." then resolve_segments rest (List.tail resolved)
      else if String.eqb seg "." then resolve_segments rest resolved
      else resolve_segments rest (seg :: resolved)
  end.

(** [segments[1:-1] = filter(None, segments[1:-1])] *)
Definition drop_empty_inner (segments : list string) : list string :=
  match segments with
  | [] => []
  | first :: rest =>
      match rest with
      | [] => [first]
      | _ => first :: List.filter truthy (removelast rest) ++ [List.last rest ""]
      end
  end.

(** [urljoin(base, url)] *)
Definition urljoin (base url_ : string) : string :=
  if negb (truthy base) then url_ else
  if negb (truthy url_) then base else
  let b := urlparse_with base "" in
  let u := urlparse_with url_ (scheme b) in
  if negb (String.eqb (scheme u) (scheme b)) || negb (mem (scheme u) uses_relative)
  then url_ else
  if mem (scheme u) uses_netloc && truthy (netloc u) then urlunparse u else
  let netloc_ := if mem (scheme u) uses_netloc then netloc b else netloc u in
  if negb (truthy (path u)) && negb (truthy (params u)) then
    urlunparse {| scheme := scheme u; netloc := netloc_; path := path b;
                  params := params b;
                  query := if truthy (query u) then query u else query b;
                  fragment := fragment u |}
  else
    let base_parts := split "/" (path b) in
    let base_parts :=
      if String.eqb (List.last base_parts "") "" then base_parts
      else removelast base_parts in
    let segments :=
      if startswith "/" (path u) then split "/" (path u)
      else drop_empty_inner (base_parts ++ split "/" (path u)) in
    let resolved := resolve_segments segments [] in
    let resolved :=
      if mem (List.last segments "") ["."; ".."] then resolved ++ [""]
      else resolved in
    let joined := join "/" resolved in
    urlunparse {| scheme := scheme u; netloc := netloc_;
                  path := if truthy joined then joined else "/";
                  params := params u; query := query u; fragment := fragment u |}.

Definition hex_value (c : ascii) : option nat :=
  let n := nat_of_ascii c in
  if is_digit c then Some (n - 48)
  else if ((65 <=? n) && (n <=? 70))%nat then Some (n - 55)
  else if ((97 <=? n) && (n <=? 102))%nat then Some (n - 87)
  else None.

Definition hex_digit (n : nat) : ascii :=
  if (n <? 10)%nat then ascii_of_nat (48 + n) else ascii_of_nat (55 + n).

Definition is_alnum (c : ascii) : bool := is_alpha c || is_digit c.

(** The unreserved characters of RFC 3986. *)
Definition unreserved (c : ascii) : bool := is_alnum c || one_of "-._~" c.

(** [unquote_unreserved(uri)]: escapes of unreserved characters are
    decoded, the others stay. [None] stands for [InvalidURL], raised at an
    escape whose two characters are alphanumeric but not hexadecimal. *)
Fixpoint unquote_unreserved (uri : string) : option string :=
  match uri with
  | EmptyString => Some ""
  | String c rest =>
      if Ascii.eqb c "%" then
        match rest with
        | String h1 (String h2 rest') =>
            if is_alnum h1 && is_alnum h2 then
              match hex_value h1, hex_value h2 with
              | Some a, Some b =>
                  let d := ascii_of_nat (16 * a + b) in
                  if unreserved d then String d <$> unquote_unreserved rest'
                  else String c <$> unquote_unreserved rest
              | _, _ => None
              end
            else String c <$> unquote_unreserved rest
        | _ => String c <$> unquote_unreserved rest
        end
      else String c <$> unquote_unreserved rest
  end.

(** [urllib.parse.quote(s, safe)] *)
Fixpoint quote (safe s : string) : string :=
  match s with
  | EmptyString => ""
  | String c rest =>
      if unreserved c || one_of safe c then String c (quote safe rest)
      else let n := nat_of_ascii c in
           String "%" (String (hex_digit (n / 16)) (String (hex_digit (n mod 16))
                  (quote safe rest)))
  end.

(** Modelled from the spec: [requote_uri] of [..utils] (not among the
    sources), the "re-encode-for-safety" utility: the URI goes through an
    unquote/quote cycle, so that escapes of unreserved characters are
    decoded and every character that is neither unreserved, reserved nor
    [%] is escaped. *)
Definition requote_uri (uri : string) : string :=
  match unquote_unreserved uri with
  | Some unquoted => quote "!#$%&'()*+,/:;=?@[]~" unquoted
  | None => quote "!#$&'()*+,/:;=?@[]~" uri
  end.

(** Decimal text to a number; [None] if a character is not a digit. *)
Fixpoint decimal (acc : Z) (s : string) : option Z :=
  match s with
  | EmptyString => Some acc
  | String c rest =>
      if is_digit c then decimal (10 * acc + Z.of_nat (nat_of_ascii c - 48)) rest
      else None
  end.

Definition default_port (scheme_ : string) : Z :=
  if String.eqb scheme_ "https" then 443
  else if String.eqb scheme_ "http" then 80 else -1.

(** Modelled from the spec: the origin of a URL given as text, "scheme +
    host + port"; a URL without a port has the port of its scheme. *)
Definition origin_of (url_ : string) : Origin :=
  let p := urlparse url_ in
  let hostport := List.last (split "@" (netloc p)) "" in
  let (host, port) := break (is_char ":") hostport in
  {| origin_scheme := scheme p;
     origin_host := lower host;
     origin_port := match port with
                    | String _ digits =>
                        match digits with
                        | EmptyString => default_port (scheme p)
                        | _ => default (-1)%Z (decimal 0 digits)
                        end
                    | EmptyString => default_port (scheme p)
                    end |}.

(** Modelled from the spec: the redirect classification, "the set 301,
    302, 303, 307, 308". *)
Definition is_redirect_code (code : Z) : bool :=
  existsb (Z.eqb code) [301; 302; 303; 307; 308]%Z.

(** URLs as their text. *)
#[export] Instance collaborators : Collaborators :=
  Build_Collaborators string _ _
    (fun s => s)                          (* URL(url) *)
    (fun u => u)                          (* str(url) *)
    (fun u => scheme (urlparse u))        (* url.scheme *)
    (fun u => fragment (urlparse u))      (* url.fragment *)
    origin_of urlparse urlunparse urljoin requote_uri is_redirect_code.

(** A transport that serves a fixed site: the response depends on the URL
    of the request alone; a URL that is not listed answers 200. *)
Definition site_response (site : list (string * Response)) (request : Request) : Response :=
  match List.find (fun entry => String.eqb (fst entry) (url request)) site with
  | Some entry => snd entry
  | None => {| status_code := 200; resp_headers := [] |}
  end.

Definition site_transport (site : list (string * Response)) : Transport := {|
  TState := unit;
  Options := unit;
  dispatch_send := fun _ request _ st => (site_response site request, st) |}.

(** A redirect response to [location]. *)
Definition redirect (code : Z) (location : string) : Response :=
  {| status_code := code; resp_headers := [("Location", location)] |}.

(** The store before the first call: [stored] are the [Headers] objects of
    the requests to come. *)
Definition start {T : Transport} (st : TState) (stored : list Headers) : World :=
  {| hdrs := stored; lists := []; sets := []; resps := [];
     history_attr := ∅; next_attr := ∅; net := st; sent := []; built := [] |}.

(** *** Scenarios for the examples *)

Definition credentials : Headers :=
  [("Authorization", "Basic dXNlcjpwdw=="); ("Accept", "*/*")].

(** A request whose headers are the first [Headers] object of the store. *)
Definition request_to (method_ url_ : string) (body_ : Body) : Request :=
  {| method := method_; url := url_; headers := 0; body := body_ |}.

(** No redirects at all. *)
Definition plain_site : Transport := site_transport [].

(** A page that redirects to itself. *)
Definition self_site : Transport :=
  site_transport [("http://a.example/x", redirect 302 "http://a.example/x")].

(** Two redirects, the second one to another origin, then a page. *)
Definition chain_site : Transport :=
  site_transport [("http://a.example/x", redirect 301 "/y");
                  ("http://a.example/y", redirect 307 "http://b.example/z")].

(** Three redirects in a row. *)
Definition long_site : Transport :=
  site_transport [("http://a.example/1", redirect 302 "/2");
                  ("http://a.example/2", redirect 302 "/3");
                  ("http://a.example/3", redirect 302 "/4")].

(** The request of the examples in the specification. *)
Definition post_x : Request :=
  request_to "POST" "http://a.example/x" (Bytes (list_byte_of_string "data")).

Definition get_x : Request := request_to "GET" "http://a.example/x" (Bytes []).

(** A page that moved for good, method and body included. *)
Definition moved_site : Transport :=
  site_transport [("http://a.example/x", redirect 307 "/y")].

(** A redirect to another origin that sends the client back. *)
Definition return_site : Transport :=
  site_transport [("http://a.example/x", redirect 302 "http://b.example/y");
                  ("http://b.example/y", redirect 302 "http://a.example/z")].

(** An upload whose body cannot be sent twice. *)
Definition stream_x : Request := request_to "POST" "http://a.example/x" Streaming.

End PyLib.

(** * Properties *)

Section Rules.
Context {C : Collaborators} {T : Transport}.

Lemma eqb_string_neq (a b : string) : a ≠ b -> String.eqb a b = false.
Proof. intros H. apply String.eqb_neq. exact H. Qed.

Lemma redirect_method_unfold (request : Request) (response : Response) :
  redirect_method request response
    = method_rule (status_code response) (method request).
Proof.
  unfold redirect_method, method_rule, codes.see_other, codes.found,
    codes.moved_permanently.
  cbv zeta.
  destruct (Z.eqb_spec (status_code response) 303) as [E3|N3];
    destruct (Z.eqb_spec (status_code response) 302) as [E2|N2];
    destruct (Z.eqb_spec (status_code response) 301) as [E1|N1];
    try lia; cbn [andb];
    destruct (String.eqb (method request) "HEAD") eqn:EH;
    cbn [andb negb]; rewrite ?EH; cbn [andb negb]; try reflexivity;
    destruct (String.eqb (method request) "POST") eqn:EP; try reflexivity;
    apply String.eqb_eq in EH, EP; congruence.
Qed.

Lemma method_rule_range (status : Z) (m : string) :
  method_rule status m = m \/ method_rule status m = "GET".
Proof.
  unfold method_rule.
  repeat match goal with
         | |- context [if ?b then _ else _] => destruct b
         end; auto.
Qed.

(** C5: the next method is the request's method rewritten by the three
    rules in their order (303 and not HEAD gives GET, then 302 and not HEAD
    gives GET, then 301 and POST gives GET, otherwise unchanged); so POST
    becomes GET under 303, 302 and 301, PUT stays PUT under 301, and HEAD
    stays HEAD under every status. *)
Theorem redirect_method_rules (request : Request) (response : Response) :
  redirect_method request response
    = method_rule (status_code response) (method request)
  /\ (method request = "POST" ->
      status_code response = 303%Z \/ status_code response = 302%Z
        \/ status_code response = 301%Z ->
      redirect_method request response = "GET")
  /\ (method request = "PUT" -> status_code response = 301%Z ->
      redirect_method request response = "PUT")
  /\ (method request = "HEAD" -> redirect_method request response = "HEAD").
Proof.
  rewrite redirect_method_unfold. unfold method_rule.
  repeat split.
  - intros -> [-> | [-> | ->]]; reflexivity.
  - intros -> ->; reflexivity.
  - intros ->.
    destruct (Z.eqb (status_code response) 303),
      (Z.eqb (status_code response) 302),
      (Z.eqb (status_code response) 301); reflexivity.
Qed.

(** C10: [redirect_method] returns the request's own method or ["GET"],
    never anything else. *)
Theorem redirect_method_range (request : Request) (response : Response) :
  redirect_method request response = method request
  \/ redirect_method request response = "GET".
Proof. rewrite redirect_method_unfold. apply method_rule_range. Qed.

Lemma redirect_body_unfold (request : Request) (m : string) :
  redirect_body request m
    = if negb (String.eqb m (method request)) && String.eqb m "GET"
      then Returned []
      else match body request with
           | Bytes data => Returned data
           | Streaming => Raised RedirectBodyUnavailable
           end.
Proof.
  unfold redirect_body, is_streaming.
  destruct (negb (String.eqb m (method request)) && String.eqb m "GET");
    [reflexivity|]. destruct (body request); reflexivity.
Qed.

Lemma changed_to_GET (m m0 : string) :
  negb (String.eqb m m0) && String.eqb m "GET" = true <-> m ≠ m0 /\ m = "GET".
Proof.
  rewrite andb_true_iff, negb_true_iff, String.eqb_neq, String.eqb_eq. tauto.
Qed.

(** C6 as amended: with the derived method, the next body is empty when
    the method changed and is GET; otherwise a streaming body raises
    [RedirectBodyUnavailable]; otherwise the body is the original bytes.
    So a streaming request raises under 307, and one whose method is
    neither GET nor HEAD gets the empty body under 303. *)
Theorem redirect_body_rules (request : Request) (response : Response) :
  let method' := redirect_method request response in
  (method' ≠ method request /\ method' = "GET" ->
     redirect_body request method' = Returned [])
  /\ (~ (method' ≠ method request /\ method' = "GET") ->
      is_streaming request = true ->
      redirect_body request method' = Raised RedirectBodyUnavailable)
  /\ (~ (method' ≠ method request /\ method' = "GET") ->
      forall data, body request = Bytes data ->
      redirect_body request method' = Returned data)
  /\ (is_streaming request = true -> status_code response = 307%Z ->
      redirect_body request method' = Raised RedirectBodyUnavailable)
  /\ (is_streaming request = true -> status_code response = 303%Z ->
      method request ≠ "GET" -> method request ≠ "HEAD" ->
      redirect_body request method' = Returned []).
Proof.
  intros method'. subst method'.
  rewrite redirect_body_unfold.
  destruct (negb (String.eqb (redirect_method request response) (method request))
            && String.eqb (redirect_method request response) "GET") eqn:E.
  - apply changed_to_GET in E. repeat split; try tauto.
    intros _ E307. exfalso. destruct E as [E _]. apply E.
    rewrite redirect_method_unfold, E307. reflexivity.
  - assert (N : ~ (redirect_method request response ≠ method request
                   /\ redirect_method request response = "GET")).
    { intros H. apply changed_to_GET in H. congruence. }
    unfold is_streaming. repeat split; try tauto.
    + intros _ S. destruct (body request); [discriminate | reflexivity].
    + intros _ data ->. reflexivity.
    + intros S _. destruct (body request); [discriminate | reflexivity].
    + intros _ E303 NG NH. exfalso. apply N.
      rewrite redirect_method_unfold, E303. unfold method_rule.
      rewrite (eqb_string_neq _ _ NH). cbn. split; [congruence | reflexivity].
Qed.

(** The 303 rule keeps HEAD, so a HEAD request with a streaming body has
    no empty body to fall back on. *)
Lemma redirect_body_head_keeps_stream (request : Request) (response : Response) :
  method request = "HEAD" -> is_streaming request = true ->
  redirect_body request (redirect_method request response)
    = Raised RedirectBodyUnavailable.
Proof.
  intros EH S. rewrite redirect_body_unfold, redirect_method_unfold.
  unfold method_rule. rewrite EH.
  replace (String.eqb "HEAD" "HEAD") with true by reflexivity.
  rewrite !andb_false_r. cbn.
  unfold is_streaming in S. destruct (body request); [discriminate | reflexivity].
Qed.

(** C7 as amended: for a target without authority the next URL is the
    target re-encoded first and resolved against the request's URL
    afterwards; for a target with an authority it is the target re-encoded,
    without resolving. *)
Theorem redirect_url_branches (request : Request) (response : Response)
    (location : string) :
  Headers_getitem (resp_headers response) "Location" = Some location ->
  let target := redirect_target request location in
  (netloc target = "" ->
     redirect_url request response = Returned (requote_then_resolve request target))
  /\ (netloc target ≠ "" ->
     redirect_url request response
       = Returned (URL_new (requote_uri (geturl target)))).
Proof.
  intros HL target. unfold redirect_url, requote_then_resolve. rewrite HL.
  fold target. split; intros N.
  - rewrite N. reflexivity.
  - destruct (netloc target); [congruence | reflexivity].
Qed.

(** *** Headers *)

Lemma filter_same_name_without (name other : string) (h : Headers) :
  lower other ≠ lower name ->
  List.filter (same_name other) (Headers_without name h)
    = List.filter (same_name other) h.
Proof.
  intros N. unfold Headers_without.
  induction h as [|line h IH]; [reflexivity|].
  cbn. destruct (same_name name line) eqn:E1; cbn.
  - destruct (same_name other line) eqn:E2; [|exact IH].
    exfalso. apply N. unfold same_name in *.
    apply String.eqb_eq in E1, E2. congruence.
  - destruct (same_name other line); [f_equal|]; exact IH.
Qed.

Lemma filter_same_name_without_eq (name : string) (h : Headers) :
  List.filter (same_name name) (Headers_without name h) = [].
Proof.
  unfold Headers_without. induction h as [|line h IH]; [reflexivity|].
  cbn. destruct (same_name name line) eqn:E; cbn; [exact IH|].
  rewrite E. exact IH.
Qed.

Lemma getitem_without_other (name other : string) (h : Headers) :
  lower other ≠ lower name ->
  Headers_getitem (Headers_without name h) other = Headers_getitem h other.
Proof.
  intros N. unfold Headers_getitem.
  rewrite filter_same_name_without by exact N. reflexivity.
Qed.

Lemma getitem_without_eq (name : string) (h : Headers) :
  Headers_getitem (Headers_without name h) name = None.
Proof. unfold Headers_getitem. rewrite filter_same_name_without_eq. reflexivity. Qed.

(** What [redirect_headers] does to the store: one new object at the end,
    with the lines of the request's headers, less Authorization when the
    origins differ. *)
Lemma redirect_headers_run (request : Request) (url' : URL) (w : World) :
  redirect_headers request url' w
  = (Returned (length (hdrs w)),
     upd_hdrs (fun hs =>
       hs ++ [let lines := default [] (hs !! headers request) in
              if bool_decide (url_origin url' = url_origin (url request))
              then lines else Headers_without "Authorization" lines]) w).
Proof.
  unfold redirect_headers, bind, Headers_copy, Headers_delitem, ret. cbn.
  destruct (bool_decide (url_origin url' = url_origin (url request))); cbn.
  - reflexivity.
  - unfold upd_hdrs. cbn. f_equal. f_equal.
    rewrite lookup_app_r by reflexivity. rewrite Nat.sub_diag. cbn.
    replace (length (hdrs w)) with (length (hdrs w) + 0) at 1 by lia.
    rewrite insert_app_r. reflexivity.
Qed.

Lemma build_redirect_request_run (request : Request) (response : Response)
    (w : World) (request' : Request) (w' : World) :
  build_redirect_request request response w = (Returned request', w') ->
  redirect_url request response = Returned (url request')
  /\ method request' = redirect_method request response
  /\ redirect_body request (method request') = Returned
       match body request' with Bytes data => data | Streaming => [] end
  /\ is_streaming request' = false
  /\ headers request' = length (hdrs w)
  /\ w' = upd_built (fun l => l ++ [request'])
            (upd_hdrs (fun hs => hs ++
               [derived_lines request (url request')
                  (default [] (hs !! headers request))]) w).
Proof.
  unfold build_redirect_request, bind, lift, note_built, ret.
  destruct (redirect_url request response) as [u|e]; [|discriminate].
  rewrite redirect_headers_run.
  destruct (redirect_body request (redirect_method request response)) as [b|e] eqn:Eb;
    [|discriminate].
  intros E. injection E as <- <-. cbn. rewrite Eb. repeat split.
Qed.


(** C9: deriving the redirect headers writes to a new object only: every
    [Headers] object that existed before, the request's own among them,
    holds the same lines afterwards (Authorization included), and the
    returned object is none of them. *)
Theorem redirect_headers_frame (request : Request) (url' : URL) (w : World)
    (lines : Headers) :
  hdrs w !! headers request = Some lines ->
  exists h',
    fst (redirect_headers request url' w) = Returned h'
    /\ h' ≠ headers request
    /\ hdrs (snd (redirect_headers request url' w)) !! headers request = Some lines
    /\ (forall h old, hdrs w !! h = Some old ->
        h' ≠ h /\ hdrs (snd (redirect_headers request url' w)) !! h = Some old).
Proof.
  intros Hl. rewrite redirect_headers_run. cbn. eexists. split; [reflexivity|].
  assert (F : forall h old, hdrs w !! h = Some old ->
            length (hdrs w) ≠ h
            /\ (hdrs w ++ [if bool_decide (url_origin url' = url_origin (url request))
                           then default [] (hdrs w !! headers request)
                           else Headers_without "Authorization"
                                  (default [] (hdrs w !! headers request))]) !! h
               = Some old).
  { intros h old Hh. pose proof (lookup_lt_Some _ _ _ Hh) as Hlt. split; [lia|].
    rewrite lookup_app_l by exact Hlt. exact Hh. }
  split; [apply (F _ _ Hl)|]. split; [apply (F _ _ Hl)|]. exact F.
Qed.

End Rules.

Section Loop.
Context {C : Collaborators} {T : Transport}.
Variable max_redirects : Z.

Lemma build_redirect_request_cases (request : Request) (response : Response) (w : World) :
  match redirect_url request response with
  | Raised e => build_redirect_request request response w = (Raised e, w)
  | Returned u =>
      let w1 := upd_hdrs (fun hs => hs ++
                  [derived_lines request u (default [] (hs !! headers request))]) w in
      match redirect_body request (redirect_method request response) with
      | Raised e => build_redirect_request request response w = (Raised e, w1)
      | Returned b =>
          let request' := {| method := redirect_method request response; url := u;
                             headers := length (hdrs w); body := Bytes b |} in
          build_redirect_request request response w
            = (Returned request', upd_built (fun l => l ++ [request']) w1)
      end
  end.
Proof.
  unfold build_redirect_request, bind, lift, note_built, ret.
  destruct (redirect_url request response) as [u|e]; [|reflexivity].
  rewrite redirect_headers_run. cbv zeta.
  destruct (redirect_body request (redirect_method request response));
    reflexivity.
Qed.

Lemma loop_body_cases (allow_redirects : bool) (options : Options)
    (history seen_urls : ref) (request : Request) (w : World) :
  let response := fst (dispatch_send (hdrs w) request options (net w)) in
  let r := length (resps w) in
  let w2 := received history request options w in
  if negb (is_redirect response)
  then loop_body max_redirects allow_redirects options history seen_urls request w
       = (Returned (Break r), w2)
  else
    let w3 := upd_lists (fun ls => <[history := default [] (ls !! history) ++ [r]]> ls) w2 in
    match build_redirect_request request response w3 with
    | (Raised e, w4) =>
        loop_body max_redirects allow_redirects options history seen_urls request w
        = (Raised e, w4)
    | (Returned request', w4) =>
        if negb allow_redirects then
          loop_body max_redirects allow_redirects options history seen_urls request w
          = (Returned (Break r),
             upd_next_attr (fun m => <[r := {| p_request := request'; p_options := options;
                                               p_seen_urls := seen_urls;
                                               p_history := history |}]> m) w4)
        else if (max_redirects <? Z.of_nat (length (default [] (lists w4 !! history))))%Z then
          loop_body max_redirects allow_redirects options history seen_urls request w
          = (Raised TooManyRedirects, w4)
        else if bool_decide (url request' ∈ default ∅ (sets w4 !! seen_urls)) then
          loop_body max_redirects allow_redirects options history seen_urls request w
          = (Raised RedirectLoop, w4)
        else
          loop_body max_redirects allow_redirects options history seen_urls request w
          = (Returned (Continue request'),
             upd_sets (fun ss => <[seen_urls := {[url request']} ∪ default ∅ (ss !! seen_urls)]> ss) w4)
    end.
Proof.
  cbv zeta. unfold loop_body, bind, dispatch, list_copy, setattr_history, ret,
    list_append, received.
  destruct (dispatch_send (hdrs w) request options (net w)) as [response net'].
  cbn [fst snd].
  destruct (is_redirect response); cbn [negb]; [|reflexivity].
  match goal with
  | |- match build_redirect_request _ _ ?a with _ => _ end => set (w3 := a)
  end.
  repeat match goal with
         | |- context [build_redirect_request request response ?b] =>
             lazymatch b with
             | w3 => fail
             | _ => change b with w3
             end
         end.
  destruct (build_redirect_request request response w3) as [[request'|e] w4];
    [|reflexivity].
  destruct allow_redirects; cbn [negb]; [|reflexivity].
  unfold list_len, set_contains, set_add, raise. cbn.
  destruct (max_redirects <? _)%Z; [reflexivity|].
  destruct (bool_decide _); reflexivity.
Qed.

(** [build_redirect_request] writes a [Headers] object and the trace of
    derived requests, nothing else. *)
Lemma build_redirect_request_frame (request : Request) (response : Response)
    (w : World) (out : outcome Request) (w' : World) :
  build_redirect_request request response w = (out, w') ->
  lists w' = lists w /\ sets w' = sets w /\ resps w' = resps w
  /\ history_attr w' = history_attr w /\ next_attr w' = next_attr w
  /\ net w' = net w /\ sent w' = sent w
  /\ built w' = match out with
                | Returned request' => built w ++ [request']
                | Raised _ => built w
                end
  /\ hdrs w `prefix_of` hdrs w'.
Proof.
  pose proof (build_redirect_request_cases request response w) as Hc.
  destruct (redirect_url request response) as [u|e].
  - cbv zeta in Hc.
    destruct (redirect_body request (redirect_method request response));
      rewrite Hc; intros E; injection E as <- <-; cbn;
      repeat split; apply prefix_app_r; reflexivity.
  - rewrite Hc. intros E; injection E as <- <-. repeat split; reflexivity.
Qed.

Lemma accumulate_eq {A} (ls : list (list A)) (h : nat) (x : list A) (r : A) :
  h < length ls ->
  <[h := default [] ((ls ++ [x]) !! h) ++ [r]]> (ls ++ [x])
  = <[h := default [] (ls !! h) ++ [r]]> ls ++ [x].
Proof.
  intros Hh. rewrite lookup_app_l by exact Hh.
  rewrite insert_app_l by exact Hh. reflexivity.
Qed.

(** One pass through the loop body: what it does to the store whatever
    the way it ends. [r] names the response received, [items] are the
    items of the history before. *)
Lemma pass_store (allow_redirects : bool) (options : Options)
    (history seen_urls : ref) (request : Request) (w : World)
    (out : outcome step) (w' : World) :
  history < length (lists w) ->
  loop_body max_redirects allow_redirects options history seen_urls request w
    = (out, w') ->
  let answer := dispatch_send (hdrs w) request options (net w) in
  let r := length (resps w) in
  let items := default [] (lists w !! history) in
  resps w' = resps w ++ [fst answer]
  /\ net w' = snd answer
  /\ sent w' = sent w ++ [request]
  /\ history_attr w' = <[r := length (lists w)]> (history_attr w)
  /\ lists w' = (if is_redirect (fst answer)
                 then <[history := items ++ [r]]> (lists w) ++ [items]
                 else lists w ++ [items])
  /\ hdrs w `prefix_of` hdrs w'.
Proof.
  intros Hh E.
  pose proof (loop_body_cases allow_redirects options history seen_urls request w) as Hc.
  cbv zeta in Hc |- *.
  destruct (is_redirect (fst (dispatch_send (hdrs w) request options (net w)))).
  2:{ cbn [negb] in Hc. rewrite Hc in E. injection E as <- <-. cbn.
      repeat split; reflexivity. }
  cbn [negb] in Hc.
  match type of Hc with
  | match build_redirect_request _ _ ?a with _ => _ end =>
      destruct (build_redirect_request request
                  (fst (dispatch_send (hdrs w) request options (net w))) a)
        as [[request'|e] w4] eqn:Eb
  end; apply build_redirect_request_frame in Eb;
    destruct Eb as (El & Es & Er & Eh & En & Et & Ese & Ebu & Ehd);
    cbn [upd_lists received lists sets resps history_attr next_attr net sent built hdrs]
      in El, Es, Er, Eh, En, Et, Ese, Ebu, Ehd;
    rewrite accumulate_eq in El by exact Hh.
  - destruct allow_redirects; cbn [negb] in Hc.
    + destruct (max_redirects <? _)%Z;
        [|destruct (bool_decide _)];
        rewrite Hc in E; injection E as <- <-; cbn; auto 10.
    + rewrite Hc in E; injection E as <- <-; cbn; auto 10.
  - rewrite Hc in E; injection E as <- <-; auto 10.
Qed.

Lemma build_redirect_request_raises (request : Request) (response : Response)
    (w : World) (e : exn) (w' : World) :
  build_redirect_request request response w = (Raised e, w') ->
  e = KeyError \/ e = RedirectBodyUnavailable.
Proof.
  pose proof (build_redirect_request_cases request response w) as Hc.
  unfold redirect_url in Hc.
  destruct (Headers_getitem (resp_headers response) "Location").
  - cbv zeta in Hc. rewrite redirect_body_unfold in Hc.
    destruct (negb _ && _).
    + rewrite Hc. discriminate.
    + destruct (body request); rewrite Hc; [discriminate|].
      intros E. injection E as <- _. auto.
  - rewrite Hc. intros E. injection E as <- _. auto.
Qed.

(** One pass through the loop body: how it ends, and what the end means
    for the trace, the visited set and the [next] attributes. *)
Lemma pass_outcome (allow_redirects : bool) (options : Options)
    (history seen_urls : ref) (request : Request) (w : World)
    (out : outcome step) (w' : World) :
  history < length (lists w) ->
  loop_body max_redirects allow_redirects options history seen_urls request w
    = (out, w') ->
  let answer := dispatch_send (hdrs w) request options (net w) in
  let r := length (resps w) in
  let items := default [] (lists w !! history) in
  let seen := default ∅ (sets w !! seen_urls) in
  match out with
  | Returned (Break r') =>
      r' = r /\ sets w' = sets w
      /\ (if is_redirect (fst answer)
          then allow_redirects = false
               /\ exists request',
                    built w' = built w ++ [request']
                    /\ next_attr w'
                       = <[r := {| p_request := request'; p_options := options;
                                   p_seen_urls := seen_urls; p_history := history |}]>
                           (next_attr w)
          else built w' = built w /\ next_attr w' = next_attr w)
  | Returned (Continue request') =>
      allow_redirects = true /\ is_redirect (fst answer) = true
      /\ built w' = built w ++ [request'] /\ next_attr w' = next_attr w
      /\ (Z.of_nat (length items + 1) <= max_redirects)%Z
      /\ (url request' ∉ seen)
      /\ sets w' = <[seen_urls := {[url request']} ∪ seen]> (sets w)
  | Raised TooManyRedirects =>
      allow_redirects = true /\ is_redirect (fst answer) = true
      /\ (exists request', built w' = built w ++ [request'])
      /\ (max_redirects < Z.of_nat (length items + 1))%Z
      /\ sets w' = sets w /\ next_attr w' = next_attr w
  | Raised RedirectLoop =>
      allow_redirects = true /\ is_redirect (fst answer) = true
      /\ (exists request', built w' = built w ++ [request'] /\ url request' ∈ seen)
      /\ (Z.of_nat (length items + 1) <= max_redirects)%Z
      /\ sets w' = sets w /\ next_attr w' = next_attr w
  | Raised _ =>
      is_redirect (fst answer) = true
      /\ built w' = built w /\ sets w' = sets w /\ next_attr w' = next_attr w
  end.
Proof.
  intros Hh E.
  pose proof (loop_body_cases allow_redirects options history seen_urls request w) as Hc.
  cbv zeta in Hc |- *.
  destruct (is_redirect (fst (dispatch_send (hdrs w) request options (net w)))).
  2:{ cbn [negb] in Hc. rewrite Hc in E. injection E as <- <-. cbn. auto. }
  cbn [negb] in Hc.
  match type of Hc with
  | match build_redirect_request _ _ ?a with _ => _ end =>
      destruct (build_redirect_request request
                  (fst (dispatch_send (hdrs w) request options (net w))) a)
        as [[request'|e] w4] eqn:Eb
  end.
  - apply build_redirect_request_frame in Eb.
    destruct Eb as (El & Es & _ & _ & En & _ & _ & Ebu & _).
    cbn [upd_lists received lists sets resps history_attr next_attr net sent built hdrs]
      in El, Es, En, Ebu.
    rewrite accumulate_eq in El by exact Hh.
    assert (Elen : length (default [] (lists w4 !! history))
                   = length (default [] (lists w !! history)) + 1).
    { rewrite El, lookup_app_l by (rewrite length_insert; exact Hh).
      rewrite list_lookup_insert_eq by exact Hh. cbn. rewrite length_app. reflexivity. }
    destruct allow_redirects; cbn [negb] in Hc.
    + rewrite Elen, Es in Hc.
      destruct (Z.ltb_spec max_redirects
                  (Z.of_nat (length (default [] (lists w !! history)) + 1))).
      { rewrite Hc in E. injection E as <- <-. eauto 10. }
      case_bool_decide as Hin; rewrite Hc in E; injection E as <- <-.
      * eauto 10.
      * cbn. rewrite Es. auto 10.
    + rewrite Hc in E. injection E as <- <-. cbn. rewrite En. eauto 10.
  - pose proof (build_redirect_request_raises _ _ _ _ _ Eb) as He.
    apply build_redirect_request_frame in Eb.
    destruct Eb as (_ & Es & _ & _ & En & _ & _ & Ebu & _).
    rewrite Hc in E. injection E as <- <-.
    destruct He as [-> | ->]; auto.
Qed.

(** The history object after a pass that received a redirect. *)
Lemma pass_history_grows (allow_redirects : bool) (options : Options)
    (history seen_urls : ref) (request : Request) (w : World)
    (out : outcome step) (w' : World) :
  history < length (lists w) ->
  loop_body max_redirects allow_redirects options history seen_urls request w
    = (out, w') ->
  is_redirect (fst (dispatch_send (hdrs w) request options (net w))) = true ->
  history < length (lists w')
  /\ lists w' !! history
     = Some (default [] (lists w !! history) ++ [length (resps w)]).
Proof.
  intros Hh E Hr.
  destruct (pass_store _ _ _ _ _ _ _ _ Hh E) as (_ & _ & _ & _ & El & _).
  rewrite Hr in El. rewrite El. rewrite length_app, length_insert. split; [lia|].
  rewrite lookup_app_l by (rewrite length_insert; exact Hh).
  apply list_lookup_insert_eq. exact Hh.
Qed.

(** An automatic chain, from any pass on: the requests it derives ([bs]),
    the requests it sends, and the length of the history when it ends. *)
Lemma auto_loop_trace (fuel : nat) (options : Options) (history seen_urls : ref) :
  forall (request : Request) (w : World) (out : outcome ref) (w' : World),
  history < length (lists w) ->
  (Z.of_nat (length (default [] (lists w !! history))) <= max_redirects)%Z ->
  send_loop max_redirects fuel true options history seen_urls request w
    = Some (out, w') ->
  let n := length (default [] (lists w !! history)) in
  exists bs,
    built w' = built w ++ bs
    /\ match out with
       | Returned r =>
           sent w' = sent w ++ request :: bs
           /\ exists l items,
                history_attr w' !! r = Some l /\ lists w' !! l = Some items
                /\ length items = n + length bs
                /\ (Z.of_nat (length items) <= max_redirects)%Z
       | Raised TooManyRedirects =>
           sent w' = sent w ++ request :: removelast bs /\ bs ≠ []
           /\ Z.of_nat (n + length bs) = (max_redirects + 1)%Z
       | Raised RedirectLoop =>
           sent w' = sent w ++ request :: removelast bs /\ bs ≠ []
           /\ (Z.of_nat (n + length bs) <= max_redirects)%Z
       | Raised _ =>
           sent w' = sent w ++ request :: bs
           /\ (Z.of_nat (n + length bs) <= max_redirects)%Z
       end.
Proof.
  induction fuel as [|fuel IH]; intros request w out w' Hh Hn E; [discriminate|].
  cbn [send_loop] in E.
  destruct (loop_body max_redirects true options history seen_urls request w)
    as [o w1] eqn:Ep.
  pose proof (pass_store _ _ _ _ _ _ _ _ Hh Ep) as (_ & _ & Es & Ea & El & _).
  pose proof (pass_outcome _ _ _ _ _ _ _ _ Hh Ep) as Ho.
  pose proof (pass_history_grows _ _ _ _ _ _ _ _ Hh Ep) as Hg.
  cbv zeta in Ho |- *.
  destruct (lookup_lt_is_Some_2 _ _ Hh) as [items0 Ei].
  rewrite Ei in Hn, El, Ho, Hg |- *. cbn [from_option id] in Hn, El, Ho, Hg |- *.
  destruct o as [[r|request']|e].
  - injection E as <- <-. destruct Ho as (-> & _ & Ho).
    destruct (is_redirect _); [destruct Ho; discriminate|].
    destruct Ho as (Eb & _). exists []. rewrite app_nil_r. split; [exact Eb|].
    split; [exact Es|]. eexists _, _. split; [rewrite Ea; apply lookup_insert_eq|].
    split; [rewrite El; apply list_lookup_middle; reflexivity|].
    split; [cbn; lia | exact Hn].
  - destruct Ho as (_ & Hr & Eb & _ & Hle & _ & _).
    destruct (Hg Hr) as (Hh1 & El1).
    specialize (IH request' w1 out w' Hh1).
    rewrite El1 in IH. cbv zeta in IH. cbn [from_option id] in IH.
    rewrite length_app in IH. cbn [length] in IH.
    destruct (IH Hle E) as (bs & Ebs & Hout).
    exists (request' :: bs). rewrite Ebs, Eb, <- app_assoc. split; [reflexivity|].
    destruct out as [r|[]]; cbn [length];
      rewrite Es, <- app_assoc in Hout; cbn [app] in Hout.
    + destruct Hout as (-> & l & items & ? & ? & ? & ?).
      split; [reflexivity|]. exists l, items. repeat split; auto; lia.
    + destruct Hout as (-> & Hne & ?). destruct bs; [congruence|].
      split; [reflexivity|]. split; [discriminate | lia].
    + destruct Hout as (-> & Hne & ?). destruct bs; [congruence|].
      split; [reflexivity|]. split; [discriminate | lia].
    + destruct Hout as (-> & ?). split; [reflexivity | lia].
    + destruct Hout as (-> & ?). split; [reflexivity | lia].
  - injection E as <- <-. destruct e.
    + destruct Ho as (_ & _ & (request' & Eb) & Hlt & _).
      exists [request']. split; [exact Eb|]. cbn. split; [exact Es|].
      split; [discriminate | lia].
    + destruct Ho as (_ & _ & (request' & Eb & _) & Hlt & _).
      exists [request']. split; [exact Eb|]. cbn. split; [exact Es|].
      split; [discriminate | lia].
    + destruct Ho as (_ & Eb & _). exists []. rewrite app_nil_r.
      split; [exact Eb|]. split; [exact Es | cbn; lia].
    + destruct Ho as (_ & Eb & _). exists []. rewrite app_nil_r.
      split; [exact Eb|]. split; [exact Es | cbn; lia].
Qed.

(** How a pass of an automatic chain ends decides whether there is fuel
    for it: the history grows with every pass that continues. *)
Lemma auto_loop_terminates (fuel : nat) (options : Options) (history seen_urls : ref) :
  forall (request : Request) (w : World),
  history < length (lists w) ->
  (max_redirects - Z.of_nat (length (default [] (lists w !! history)))
     < Z.of_nat fuel)%Z ->
  0 < fuel ->
  exists out w',
    send_loop max_redirects fuel true options history seen_urls request w
      = Some (out, w').
Proof.
  induction fuel as [|fuel IH]; intros request w Hh Hf Hpos; [lia|].
  cbn [send_loop].
  destruct (loop_body max_redirects true options history seen_urls request w)
    as [o w1] eqn:Ep.
  pose proof (pass_outcome _ _ _ _ _ _ _ _ Hh Ep) as Ho.
  pose proof (pass_history_grows _ _ _ _ _ _ _ _ Hh Ep) as Hg.
  cbv zeta in Ho.
  destruct o as [[r|request']|e]; [eauto | | eauto].
  destruct Ho as (_ & Hr & _ & _ & Hle & _ & _).
  destruct (Hg Hr) as (Hh1 & El1).
  apply IH; [exact Hh1 | | lia].
  rewrite El1. cbn [from_option id]. rewrite length_app. cbn [length]. lia.
Qed.

(** Lines 22 to 25, run: the history and the visited set of the chain and
    the store in which the loop starts. *)
Lemma send_prelude_run (request : Request) (history seen_urls : option ref) (w : World) :
  exists w0,
    send_prelude request history seen_urls w
      = (Returned (from_option id (length (lists w)) history,
                   from_option id (length (sets w)) seen_urls), w0)
    /\ lists w0 = match history with
                  | Some _ => lists w
                  | None => lists w ++ [[]]
                  end
    /\ sets w0 = match seen_urls with
                 | Some s => <[s := {[url request]} ∪ default ∅ (sets w !! s)]> (sets w)
                 | None => sets w ++ [{[url request]}]
                 end
    /\ hdrs w0 = hdrs w /\ resps w0 = resps w
    /\ history_attr w0 = history_attr w /\ next_attr w0 = next_attr w
    /\ net w0 = net w /\ sent w0 = sent w /\ built w0 = built w.
Proof.
  unfold send_prelude, bind, ret, list_new, set_new, set_add.
  destruct history as [h|], seen_urls as [s|]; cbn;
    eexists; (split; [reflexivity|]); cbn; repeat split;
    rewrite ?length_app; cbn [length];
    try (rewrite lookup_app_r by reflexivity; rewrite Nat.sub_diag; cbn;
         replace (length (sets w)) with (length (sets w) + 0) at 1 by lia;
         rewrite insert_app_r; cbn; rewrite union_empty_r_L; reflexivity).
Qed.

Lemma removelast_cons {A} (x : A) (l : list A) :
  l ≠ [] -> removelast (x :: l) = x :: removelast l.
Proof. destruct l; [congruence | reflexivity]. Qed.

(** The visited set after a pass that continues. *)
Lemma pass_visited_grows (options : Options) (history seen_urls : ref)
    (request request' : Request) (w w' : World) :
  history < length (lists w) -> seen_urls < length (sets w) ->
  loop_body max_redirects true options history seen_urls request w
    = (Returned (Continue request'), w') ->
  seen_urls < length (sets w')
  /\ default ∅ (sets w' !! seen_urls)
     = {[url request']} ∪ default ∅ (sets w !! seen_urls)
  /\ url request' ∉ default ∅ (sets w !! seen_urls).
Proof.
  intros Hh Hs Ep.
  pose proof (pass_outcome _ _ _ _ _ _ _ _ Hh Ep) as Ho. cbv zeta in Ho.
  destruct Ho as (_ & _ & _ & _ & _ & Hnew & ->).
  rewrite length_insert. split; [exact Hs|].
  rewrite list_lookup_insert_eq by exact Hs. split; [reflexivity | exact Hnew].
Qed.

(** An automatic chain, from any pass on: the requests it derives ([bs])
    are all sent, in order, except the last one when the chain is refused;
    no request it sends after the current one goes to a visited URL, and no
    two go to the same URL. *)
Lemma auto_loop_visits (fuel : nat) (options : Options) (history seen_urls : ref) :
  forall (request : Request) (w : World) (out : outcome ref) (w' : World),
  history < length (lists w) -> seen_urls < length (sets w) ->
  url request ∈ default ∅ (sets w !! seen_urls) ->
  send_loop max_redirects fuel true options history seen_urls request w
    = Some (out, w') ->
  exists bs ss,
    built w' = built w ++ bs /\ sent w' = sent w ++ request :: ss
    /\ match out with
       | Raised TooManyRedirects | Raised RedirectLoop =>
           ss = removelast bs /\ bs ≠ []
       | _ => ss = bs
       end
    /\ NoDup (url <$> ss)
    /\ (forall q, q ∈ ss -> url q ∉ default ∅ (sets w !! seen_urls))
    /\ (out = Raised RedirectLoop ->
        exists q, last bs = Some q
                  /\ (url q ∈ default ∅ (sets w !! seen_urls) \/ url q ∈ url <$> ss)).
Proof.
  induction fuel as [|fuel IH]; intros request w out w' Hh Hs Hin E; [discriminate|].
  cbn [send_loop] in E.
  destruct (loop_body max_redirects true options history seen_urls request w)
    as [o w1] eqn:Ep.
  pose proof (pass_store _ _ _ _ _ _ _ _ Hh Ep) as (_ & _ & Es & _ & _ & _).
  pose proof (pass_outcome _ _ _ _ _ _ _ _ Hh Ep) as Ho.
  pose proof (pass_history_grows _ _ _ _ _ _ _ _ Hh Ep) as Hg.
  cbv zeta in Ho.
  destruct o as [[r|request']|e].
  - injection E as <- <-. destruct Ho as (_ & _ & Ho).
    destruct (is_redirect _); [destruct Ho; discriminate|].
    destruct Ho as (Eb & _). exists [], []. rewrite app_nil_r.
    split; [exact Eb|]. split; [exact Es|]. split; [reflexivity|].
    split; [constructor|]. split; [intros q Hq; inversion Hq | discriminate].
  - destruct (pass_visited_grows _ _ _ _ _ _ _ Hh Hs Ep) as (Hs1 & Ev & Hnew).
    destruct Ho as (_ & Hr & Eb & _).
    destruct (Hg Hr) as (Hh1 & _).
    destruct (IH request' w1 out w' Hh1 Hs1) as (bs & ss & Ebs & Ess & Hshape & Hnd & Hfresh & Hloop);
      [rewrite Ev; apply elem_of_union_l, elem_of_singleton; reflexivity | exact E |].
    rewrite Ev in Hfresh, Hloop.
    exists (request' :: bs), (request' :: ss).
    rewrite Ebs, Eb, Ess, Es, <- !app_assoc. cbn [app].
    split; [reflexivity|]. split; [reflexivity|].
    split.
    { destruct out as [r|[]]; try (f_equal; exact Hshape);
        destruct Hshape as (-> & Hne);
        (split; [symmetry; apply removelast_cons; exact Hne | discriminate]). }
    split.
    { rewrite fmap_cons. constructor; [|exact Hnd].
      intros Hdup. apply list_elem_of_fmap in Hdup as (q & Eq & Hq).
      apply (Hfresh q Hq). rewrite <- Eq.
      apply elem_of_union_l, elem_of_singleton. reflexivity. }
    split.
    { intros q Hq. apply elem_of_cons in Hq as [-> | Hq]; [exact Hnew|].
      intros Hv. apply (Hfresh q Hq), elem_of_union_r, Hv. }
    intros Eo. destruct (Hloop Eo) as (q & Hlast & Hq). exists q. split.
    { destruct bs; [discriminate | exact Hlast]. }
    rewrite fmap_cons. destruct Hq as [Hq | Hq]; [|right; apply elem_of_cons; right; exact Hq].
    apply elem_of_union in Hq as [Hq | Hq]; [right | left; exact Hq].
    apply elem_of_singleton in Hq. rewrite Hq. apply elem_of_cons. left. reflexivity.
  - injection E as <- <-. destruct e.
    + destruct Ho as (_ & _ & (request' & Eb) & _).
      exists [request'], []. split; [exact Eb|]. split; [exact Es|].
      split; [split; [reflexivity | discriminate]|].
      split; [constructor|]. split; [intros q Hq; inversion Hq | discriminate].
    + destruct Ho as (_ & _ & (request' & Eb & Hv) & _).
      exists [request'], []. split; [exact Eb|]. split; [exact Es|].
      split; [split; [reflexivity | discriminate]|].
      split; [constructor|]. split; [intros q Hq; inversion Hq |].
      intros _. exists request'. split; [reflexivity | left; exact Hv].
    + destruct Ho as (_ & Eb & _). exists [], []. rewrite app_nil_r.
      split; [exact Eb|]. split; [exact Es|]. split; [reflexivity|].
      split; [constructor|]. split; [intros q Hq; inversion Hq | discriminate].
    + destruct Ho as (_ & Eb & _). exists [], []. rewrite app_nil_r.
      split; [exact Eb|]. split; [exact Es|]. split; [reflexivity|].
      split; [constructor|]. split; [intros q Hq; inversion Hq | discriminate].
Qed.

(** The store in which the loop of [send] starts: the history and the
    visited set are objects of it, and the URL of the request is visited. *)
Lemma send_prelude_valid (request : Request) (history seen_urls : option ref) (w : World) :
  (forall h, history = Some h -> h < length (lists w)) ->
  (forall s, seen_urls = Some s -> s < length (sets w)) ->
  exists w0,
    send_prelude request history seen_urls w
      = (Returned (from_option id (length (lists w)) history,
                   from_option id (length (sets w)) seen_urls), w0)
    /\ from_option id (length (lists w)) history < length (lists w0)
    /\ from_option id (length (sets w)) seen_urls < length (sets w0)
    /\ default ∅ (sets w0 !! from_option id (length (sets w)) seen_urls)
       = {[url request]} ∪ match seen_urls with
                            | Some s => default ∅ (sets w !! s)
                            | None => ∅
                            end
    /\ lists w0 !! from_option id (length (lists w)) history
       = Some match history with
              | Some h => default [] (lists w !! h)
              | None => []
              end
    /\ (forall l, l < length (lists w) -> lists w0 !! l = lists w !! l)
    /\ hdrs w0 = hdrs w /\ resps w0 = resps w
    /\ history_attr w0 = history_attr w /\ next_attr w0 = next_attr w
    /\ net w0 = net w /\ sent w0 = sent w /\ built w0 = built w.
Proof.
  intros Hh Hs.
  destruct (send_prelude_run request history seen_urls w)
    as (w0 & E & El & Ese & Rest).
  exists w0. split; [exact E|]. rewrite El, Ese.
  split. { destruct history as [h|]; cbn; [auto | rewrite length_app; cbn; lia]. }
  split. { destruct seen_urls as [s|]; cbn;
           [rewrite length_insert; auto | rewrite length_app; cbn; lia]. }
  split. { destruct seen_urls as [s|]; cbn.
           - rewrite list_lookup_insert_eq by auto. reflexivity.
           - rewrite list_lookup_middle by reflexivity. cbn.
             rewrite union_empty_r_L. reflexivity. }
  split. { destruct history as [h|]; cbn.
           - destruct (lookup_lt_is_Some_2 _ _ (Hh h eq_refl)) as [x ->]. reflexivity.
           - apply list_lookup_middle. reflexivity. }
  split. { intros l Hl. destruct history; [reflexivity|].
           apply lookup_app_l. exact Hl. }
  exact Rest.
Qed.


(** One pass keeps the histories stamped: the response received gets a
    new list object with the items of the history, the history grows by
    that response at most, no other list object changes. *)
Lemma pass_stamped (allow_redirects : bool) (options : Options)
    (history seen_urls : ref) (request : Request) (w : World)
    (out : outcome step) (w' : World) (items : list ref) :
  stamped w history -> lists w !! history = Some items ->
  loop_body max_redirects allow_redirects options history seen_urls request w
    = (out, w') ->
  let r := length (resps w) in
  stamped w' history
  /\ (lists w' !! history = Some items \/ lists w' !! history = Some (items ++ [r]))
  /\ (forall l x, l ≠ history -> lists w !! l = Some x -> lists w' !! l = Some x)
  /\ exists l, history_attr w' !! r = Some l /\ l ≠ history
               /\ lists w' !! l = Some items.
Proof.
  intros (items0 & Ei0 & Hst) Ei Ep r. rewrite Ei in Ei0. injection Ei0 as <-.
  pose proof (lookup_lt_Some _ _ _ Ei) as Hh.
  pose proof (pass_store _ _ _ _ _ _ _ _ Hh Ep) as (Er & _ & _ & Ea & El & _).
  cbv zeta in El, Ea. rewrite Ei in El. cbn [from_option id] in El.
  assert (Hold : forall l x, l ≠ history -> lists w !! l = Some x ->
                             lists w' !! l = Some x).
  { intros l x Hne Hl. pose proof (lookup_lt_Some _ _ _ Hl) as Hlt. rewrite El.
    destruct (is_redirect _).
    - rewrite lookup_app_l by (rewrite length_insert; exact Hlt).
      rewrite list_lookup_insert_ne by congruence. exact Hl.
    - rewrite lookup_app_l by exact Hlt. exact Hl. }
  assert (Hnew : history_attr w' !! r = Some (length (lists w))
                 /\ length (lists w) ≠ history
                 /\ lists w' !! length (lists w) = Some items).
  { split; [rewrite Ea; apply lookup_insert_eq|]. split; [lia|].
    rewrite El. destruct (is_redirect _).
    - apply list_lookup_middle. rewrite length_insert. reflexivity.
    - apply list_lookup_middle. reflexivity. }
  assert (Hkeep : forall i r0, items !! i = Some r0 ->
            r0 < length (resps w')
            /\ exists l, history_attr w' !! r0 = Some l /\ l ≠ history
                         /\ lists w' !! l = Some (take i items)).
  { intros i r0 Hi. destruct (Hst i r0 Hi) as (Hr0 & l & Hl & Hne & Hli).
    split; [rewrite Er, length_app; lia|].
    exists l. split; [|split; [exact Hne | apply Hold; assumption]].
    rewrite Ea, lookup_insert_ne by (unfold r; lia). exact Hl. }
  assert (Ecase : lists w' !! history = Some items /\ stamped w' history
                  \/ lists w' !! history = Some (items ++ [r]) /\ stamped w' history).
  { destruct (is_redirect _) eqn:Hr.
    - right.
      assert (E1 : lists w' !! history = Some (items ++ [r])).
      { rewrite El, lookup_app_l by (rewrite length_insert; exact Hh).
        apply list_lookup_insert_eq. exact Hh. }
      split; [exact E1|]. exists (items ++ [r]). split; [exact E1|].
      intros i r0 Hi.
      destruct (decide (i < length items)) as [Hlt | Hge].
      + rewrite lookup_app_l in Hi by exact Hlt.
        rewrite take_app_le by lia. apply Hkeep. exact Hi.
      + rewrite lookup_app_r in Hi by lia.
        destruct (i - length items) as [|k] eqn:Ek; [|destruct k; discriminate].
        injection Hi as <-. assert (i = length items) as -> by lia.
        split; [rewrite Er, length_app; cbn; unfold r; lia|].
        exists (length (lists w)). rewrite take_app_length.
        destruct Hnew as (? & ? & ?). auto.
    - left.
      assert (E1 : lists w' !! history = Some items).
      { rewrite El, lookup_app_l by exact Hh. exact Ei. }
      split; [exact E1|]. exists items. split; [exact E1 | exact Hkeep]. }
  split; [destruct Ecase as [[_ ?] | [_ ?]]; assumption|].
  split; [destruct Ecase as [[? _] | [? _]]; auto|].
  split; [exact Hold|].
  exists (length (lists w)). exact Hnew.
Qed.

(** A chain, in either mode and from any pass on, keeps the histories
    stamped; the history only grows at its end; a returned response holds a
    copy of the history as it was when the response was received. *)
Lemma loop_stamped (fuel : nat) (allow_redirects : bool) (options : Options)
    (history seen_urls : ref) :
  forall (request : Request) (w : World) (out : outcome ref) (w' : World)
         (items : list ref),
  stamped w history -> lists w !! history = Some items ->
  send_loop max_redirects fuel allow_redirects options history seen_urls request w
    = Some (out, w') ->
  stamped w' history
  /\ (exists items',
        lists w' !! history = Some items' /\ items `prefix_of` items'
        /\ forall r, out = Returned r ->
             exists l before,
               history_attr w' !! r = Some l /\ l ≠ history
               /\ lists w' !! l = Some before
               /\ (items' = before \/ items' = before ++ [r]))
  /\ (forall l x, l ≠ history -> lists w !! l = Some x -> lists w' !! l = Some x).
Proof.
  induction fuel as [|fuel IH]; intros request w out w' items Hst Ei E;
    [discriminate|].
  cbn [send_loop] in E.
  destruct (loop_body max_redirects allow_redirects options history seen_urls request w)
    as [o w1] eqn:Ep.
  pose proof (lookup_lt_Some _ _ _ Ei) as Hh.
  pose proof (pass_outcome _ _ _ _ _ _ _ _ Hh Ep) as Ho. cbv zeta in Ho.
  destruct (pass_stamped _ _ _ _ _ _ _ _ items Hst Ei Ep)
    as (Hst1 & Ei1 & Hold & l & Ha & Hne & Hl).
  destruct o as [[r|request']|e].
  - injection E as <- <-. destruct Ho as (-> & _).
    split; [exact Hst1|]. split; [|exact Hold].
    destruct Ei1 as [Ei1 | Ei1]; eexists; (split; [exact Ei1|]);
      (split; [try reflexivity; apply prefix_app_r; reflexivity|]);
      intros r [= <-]; exists l, items; auto.
  - destruct Ei1 as [Ei1 | Ei1];
      destruct (IH request' w1 out w' _ Hst1 Ei1 E) as (Hst' & (items' & Ei' & Hpre & Hret) & Hold');
      (split; [exact Hst'|]); (split; [|intros l0 x Hn0 Hl0; apply Hold', Hold; assumption]);
      exists items'; (split; [exact Ei'|]); (split; [|exact Hret]).
    + exact Hpre.
    + etransitivity; [|exact Hpre]. apply prefix_app_r. reflexivity.
  - injection E as <- <-. split; [exact Hst1|]. split; [|exact Hold].
    destruct Ei1 as [Ei1 | Ei1]; eexists; (split; [exact Ei1|]);
      (split; [try reflexivity; apply prefix_app_r; reflexivity|]);
      intros r; discriminate.
Qed.

(** *** The adapter does not read the [next] attributes *)

Lemma forget_next_eq (w1 w2 : World) :
  forget_next w1 = forget_next w2
  <-> hdrs w1 = hdrs w2 /\ lists w1 = lists w2 /\ sets w1 = sets w2
      /\ resps w1 = resps w2 /\ history_attr w1 = history_attr w2
      /\ net w1 = net w2 /\ sent w1 = sent w2 /\ built w1 = built w2.
Proof.
  split.
  - intros E.
    pose proof (f_equal hdrs E). pose proof (f_equal lists E).
    pose proof (f_equal sets E). pose proof (f_equal resps E).
    pose proof (f_equal history_attr E). pose proof (f_equal net E).
    pose proof (f_equal sent E). pose proof (f_equal built E). auto 10.
  - destruct w1, w2. cbn. intros (-> & -> & -> & -> & -> & -> & -> & ->).
    reflexivity.
Qed.

Ltac same_but_next :=
  unfold next_blind; intros;
  match goal with
  | E : forget_next _ = forget_next _ |- _ =>
      let E1 := fresh in let E2 := fresh in let E3 := fresh in
      let E4 := fresh in let E5 := fresh in let E6 := fresh in
      let E7 := fresh in let E8 := fresh in
      apply forget_next_eq in E;
      destruct E as (E1 & E2 & E3 & E4 & E5 & E6 & E7 & E8);
      cbn;
      cbv [forget_next upd_hdrs upd_lists upd_sets upd_history_attr
           upd_next_attr upd_built];
      cbn [hdrs lists sets resps history_attr next_attr net sent built];
      rewrite ?E1, ?E2, ?E3, ?E4, ?E5, ?E6, ?E7, ?E8
  end;
  split; reflexivity.

Lemma ret_blind {A} (a : A) : next_blind (ret a).
Proof. intros w1 w2 E. split; [reflexivity | exact E]. Qed.

Lemma raise_blind {A} (e : exn) : next_blind (@raise _ _ A e).
Proof. intros w1 w2 E. split; [reflexivity | exact E]. Qed.

Lemma lift_blind {A} (o : outcome A) : next_blind (lift o).
Proof. intros w1 w2 E. split; [reflexivity | exact E]. Qed.

Lemma bind_blind {A B} (m : M A) (k : A -> M B) :
  next_blind m -> (forall a, next_blind (k a)) -> next_blind (bind m k).
Proof.
  intros Hm Hk w1 w2 E. unfold bind. destruct (Hm w1 w2 E) as (Eo & Ew).
  destruct (m w1) as [o1 w1'], (m w2) as [o2 w2']. cbn [fst snd] in Eo, Ew.
  subst o2. destruct o1 as [a|e]; [apply Hk; exact Ew|].
  split; [reflexivity | exact Ew].
Qed.

Lemma primitives_blind :
  (forall h, next_blind (Headers_copy h))
  /\ (forall h name, next_blind (Headers_delitem h name))
  /\ next_blind list_new
  /\ (forall l, next_blind (list_copy l))
  /\ (forall l x, next_blind (list_append l x))
  /\ (forall l, next_blind (list_len l))
  /\ next_blind set_new
  /\ (forall s u, next_blind (set_add s u))
  /\ (forall s u, next_blind (set_contains s u))
  /\ (forall r l, next_blind (setattr_history r l))
  /\ (forall r p, next_blind (setattr_next r p))
  /\ (forall request, next_blind (note_built request)).
Proof. repeat match goal with |- _ /\ _ => split end; same_but_next. Qed.

Lemma dispatch_blind (request : Request) (options : Options) :
  next_blind (dispatch request options).
Proof.
  intros w1 w2 E. apply forget_next_eq in E.
  destruct E as (Eh & ? & ? & ? & ? & En & ? & ?).
  unfold dispatch. rewrite Eh, En.
  destruct (dispatch_send (hdrs w2) request options (net w2)).
  unfold forget_next. cbn.
  repeat match goal with H : _ w1 = _ w2 |- _ => rewrite H; clear H end.
  split; reflexivity.
Qed.

Ltac blind :=
  repeat first
    [ apply ret_blind | apply raise_blind | apply lift_blind | apply dispatch_blind
    | apply primitives_blind
    | apply bind_blind
    | match goal with
      | |- next_blind (if ?b then _ else _) => destruct b
      | |- next_blind (match ?o with Some _ => _ | None => _ end) => destruct o
      | |- forall _, _ => intro
      end ].

Lemma build_redirect_request_blind (request : Request) (response : Response) :
  next_blind (build_redirect_request request response).
Proof. unfold build_redirect_request, redirect_headers. blind. Qed.

Lemma loop_body_blind (allow_redirects : bool) (options : Options)
    (history seen_urls : ref) (request : Request) :
  next_blind (loop_body max_redirects allow_redirects options history seen_urls request).
Proof.
  unfold loop_body.
  repeat first [ apply build_redirect_request_blind | progress blind ].
Qed.

Lemma send_prelude_blind (request : Request) (history seen_urls : option ref) :
  next_blind (send_prelude request history seen_urls).
Proof. unfold send_prelude. blind. Qed.

(** *** Manual steps against the automatic path *)

(** Calling a continuation is [send] at line 25 with the captured
    objects: the URL of the request joins the visited set and the loop is
    entered at the transport call. No check comes before that call. *)
Lemma call_next_unfold (fuel : nat) (p : Partial) (allow_redirects : bool) (w : World) :
  call_next max_redirects fuel p allow_redirects w
  = send_loop max_redirects fuel allow_redirects (p_options p) (p_history p)
      (p_seen_urls p) (p_request p)
      (snd (set_add (p_seen_urls p) (url (p_request p)) w)).
Proof. reflexivity. Qed.

(** A pass in manual mode never asks for another pass. *)
Lemma manual_loop_once (fuel : nat) (options : Options) (history seen_urls : ref)
    (request : Request) (w : World) :
  history < length (lists w) ->
  send_loop max_redirects (S fuel) false options history seen_urls request w
  = Some (match fst (loop_body max_redirects false options history seen_urls request w) with
          | Returned (Break r) => Returned r
          | Returned (Continue _) => Raised KeyError
          | Raised e => Raised e
          end,
          snd (loop_body max_redirects false options history seen_urls request w))
  /\ forall request',
       fst (loop_body max_redirects false options history seen_urls request w)
       ≠ Returned (Continue request').
Proof.
  intros Hh. cbn [send_loop].
  destruct (loop_body max_redirects false options history seen_urls request w)
    as [o w1] eqn:Ep.
  pose proof (pass_outcome _ _ _ _ _ _ _ _ Hh Ep) as Ho. cbv zeta in Ho.
  destruct o as [[r|request']|e]; cbn [fst snd].
  - split; [reflexivity | discriminate].
  - destruct Ho as (? & _). discriminate.
  - split; [reflexivity | discriminate].
Qed.

(** The same pass in both modes, from the same store: they differ only
    when a next request was derived; then manual mode suspends where the
    automatic mode checks and goes on. *)
Lemma manual_pass_of_auto (options : Options) (history seen_urls : ref)
    (request : Request) (w : World) (out : outcome step) (w_a : World) :
  loop_body max_redirects true options history seen_urls request w = (out, w_a) ->
  match out with
  | Returned (Break r) =>
      loop_body max_redirects false options history seen_urls request w
      = (Returned (Break r), w_a)
  | Returned (Continue request') =>
      exists w4,
        loop_body max_redirects false options history seen_urls request w
        = (Returned (Break (length (resps w))),
           upd_next_attr (fun m => <[length (resps w) :=
                            {| p_request := request'; p_options := options;
                               p_seen_urls := seen_urls; p_history := history |}]> m) w4)
        /\ w_a = snd (set_add seen_urls (url request') w4)
  | Raised TooManyRedirects | Raised RedirectLoop => True
  | Raised e =>
      loop_body max_redirects false options history seen_urls request w
      = (Raised e, w_a)
  end.
Proof.
  intros E.
  pose proof (loop_body_cases true options history seen_urls request w) as Ha.
  pose proof (loop_body_cases false options history seen_urls request w) as Hm.
  cbv zeta in Ha, Hm.
  destruct (is_redirect (fst (dispatch_send (hdrs w) request options (net w)))).
  2:{ cbn [negb] in Ha, Hm. rewrite Ha in E. injection E as <- <-. exact Hm. }
  cbn [negb] in Ha, Hm.
  match type of Ha with
  | match build_redirect_request _ _ ?a with _ => _ end =>
      destruct (build_redirect_request request
                  (fst (dispatch_send (hdrs w) request options (net w))) a)
        as [[request'|e] w4] eqn:Eb
  end.
  - cbn [negb] in Ha, Hm.
    destruct (max_redirects <? _)%Z.
    { rewrite Ha in E. injection E as <- <-. exact I. }
    destruct (bool_decide _).
    { rewrite Ha in E. injection E as <- <-. exact I. }
    rewrite Ha in E. injection E as <- <-. exists w4. split; [exact Hm | reflexivity].
  - rewrite Ha in E. injection E as <- <-.
    destruct (build_redirect_request_raises _ _ _ _ _ Eb) as [-> | ->]; exact Hm.
Qed.

Lemma forget_next_upd (f : gmap ref Partial -> gmap ref Partial) (w : World) :
  forget_next (upd_next_attr f w) = forget_next w.
Proof. reflexivity. Qed.

(** Where the automatic path neither exceeds the limit nor meets a loop,
    the caller who steps by hand gets there too, with one call of a
    continuation per derived request, and ends in the same store, the
    [next] attributes apart. *)
Lemma manual_follows_auto (mf : nat) (options : Options) (history seen_urls : ref) :
  forall (fuel : nat) (request : Request) (w : World) (out : outcome ref)
         (w_a : World),
  history < length (lists w) ->
  send_loop max_redirects fuel true options history seen_urls request w
    = Some (out, w_a) ->
  out ≠ Raised TooManyRedirects -> out ≠ Raised RedirectLoop ->
  forall w_m, forget_next w_m = forget_next w ->
  exists bs w_m',
    built w_a = built w ++ bs
    /\ match send_loop max_redirects (S mf) false options history seen_urls
               request w_m with
       | Some (out1, w1) => step_on max_redirects (length bs) (S mf) out1 w1
       | None => None
       end = Some (out, w_m')
    /\ forget_next w_m' = forget_next w_a.
Proof.
  induction fuel as [|fuel IH]; intros request w out w_a Hh E Ntmr Nloop w_m Ef;
    [discriminate|].
  cbn [send_loop] in E.
  destruct (loop_body max_redirects true options history seen_urls request w)
    as [o w1a] eqn:Ep.
  pose proof (manual_pass_of_auto _ _ _ _ _ _ _ Ep) as Hm.
  pose proof (pass_outcome _ _ _ _ _ _ _ _ Hh Ep) as Ho. cbv zeta in Ho.
  pose proof (pass_history_grows _ _ _ _ _ _ _ _ Hh Ep) as Hg.
  pose proof (proj1 (forget_next_eq _ _) Ef)
    as (Ehd & Eli & Ese & Ere & Eha & Ene & Esn & Ebu).
  assert (Hhm : history < length (lists w_m)) by (rewrite Eli; exact Hh).
  destruct (manual_loop_once mf options history seen_urls request w_m Hhm)
    as (Eloop & _).
  rewrite Eloop. clear Eloop.
  destruct (loop_body_blind false options history seen_urls request w_m w Ef)
    as (Efst & Esnd).
  destruct (loop_body max_redirects false options history seen_urls request w_m)
    as [o_m w1m] eqn:Epm.
  cbn [fst snd] in Efst, Esnd |- *.
  destruct o as [[r|request']|e].
  - injection E as <- <-. rewrite Hm in Efst, Esnd. cbn [fst snd] in Efst, Esnd.
    subst o_m. exists [], w1m.
    destruct Ho as (_ & _ & Ho).
    destruct (is_redirect _); [destruct Ho; discriminate|].
    destruct Ho as (Eb & _). rewrite Eb, app_nil_r.
    split; [reflexivity|]. split; [|exact Esnd].
    cbn. destruct (next_attr w1m !! r); reflexivity.
  - destruct Hm as (w4 & Hm & Ew).
    rewrite Hm in Efst, Esnd. cbn [fst snd] in Efst, Esnd.
    rewrite forget_next_upd in Esnd. subst o_m.
    destruct Ho as (_ & Hr & Eb & _).
    destruct (Hg Hr) as (Hh1 & _).
    pose proof (proj1 (forget_next_eq _ _) Esnd) as (_ & _ & _ & _ & _ & _ & _ & Eb4).
    assert (Eba : built w1a = built w4) by (rewrite Ew; reflexivity).
    pose proof (pass_outcome _ _ _ _ _ _ _ _ Hhm Epm) as Hom. cbv zeta in Hom.
    destruct Hom as (_ & _ & Hom).
    assert (En : next_attr w1m !! length (resps w)
                 = Some {| p_request := request'; p_options := options;
                           p_seen_urls := seen_urls; p_history := history |}).
    { rewrite Ehd, Ene, Hr in Hom.
      destruct Hom as (_ & request'' & Eb' & ->).
      rewrite Ere, lookup_insert_eq.
      rewrite Eb4, <- Eba, Eb, Ebu in Eb'.
      apply app_inv_head in Eb'. injection Eb' as ->. reflexivity. }
    assert (Ef1 : forget_next (snd (set_add seen_urls (url request') w1m))
                  = forget_next w1a).
    { rewrite Ew. apply primitives_blind. exact Esnd. }
    destruct (IH request' w1a out w_a Hh1 E Ntmr Nloop _ Ef1)
      as (bs & w_m' & Ebs & Erun & Efin).
    exists (request' :: bs), w_m'.
    split; [rewrite Ebs, Eb, <- app_assoc; reflexivity|].
    split; [|exact Efin].
    cbn [length step_on]. rewrite En, call_next_unfold. exact Erun.
  - injection E as <- <-.
    assert (Hm' : loop_body max_redirects false options history seen_urls request w
                  = (Raised e, w1a)).
    { destruct e; try exact Hm; congruence. }
    assert (Eb : built w1a = built w).
    { destruct e; try congruence; destruct Ho as (_ & Eb & _); exact Eb. }
    rewrite Hm' in Efst, Esnd. cbn [fst snd] in Efst, Esnd. subst o_m.
    exists [], w1m. rewrite Eb, app_nil_r.
    split; [reflexivity|]. split; [reflexivity | exact Esnd].
Qed.

(** What a call in manual mode returns: the response just received; if
    it is a redirect it carries a continuation that binds the request
    derived from it and the history and visited set of this call. *)
Lemma manual_call_suspends (fuel : nat) (request : Request)
    (history seen_urls : option ref) (options : Options)
    (w : World) (r : ref) (w' : World) :
  (forall h, history = Some h -> h < length (lists w)) ->
  send max_redirects fuel request false history seen_urls options w
    = Some (Returned r, w') ->
  exists response,
    resps w' !! r = Some response
    /\ (is_redirect response = true ->
        exists p,
          next_attr w' !! r = Some p
          /\ last (built w') = Some (p_request p)
          /\ p_options p = options
          /\ p_history p = from_option id (length (lists w)) history
          /\ p_seen_urls p = from_option id (length (sets w)) seen_urls)
    /\ (is_redirect response = false -> next_attr w' = next_attr w).
Proof.
  intros Hh E. unfold send in E.
  destruct (send_prelude_run request history seen_urls w)
    as (w0 & Ep & El & _ & Ehd & Er & _ & En & Ene & _ & _).
  rewrite Ep in E.
  assert (Hh0 : from_option id (length (lists w)) history < length (lists w0)).
  { rewrite El. destruct history as [h|]; cbn; [auto | rewrite length_app; cbn; lia]. }
  destruct fuel as [|fuel]; [discriminate|].
  cbn [send_loop] in E.
  destruct (loop_body max_redirects false options _ _ request w0) as [o w1] eqn:Eb.
  pose proof (pass_store _ _ _ _ _ _ _ _ Hh0 Eb) as (Ers & _).
  pose proof (pass_outcome _ _ _ _ _ _ _ _ Hh0 Eb) as Ho. cbv zeta in Ers, Ho.
  destruct o as [[r0|request']|e]; [|destruct Ho; discriminate | discriminate].
  injection E as -> ->. destruct Ho as (-> & _ & Ho).
  eexists. split; [rewrite Ers; apply list_lookup_middle; reflexivity|].
  destruct (is_redirect _).
  - split; [|discriminate]. intros _.
    destruct Ho as (_ & request' & Ebu & Ena). eexists. rewrite Ena, Ebu.
    split; [apply lookup_insert_eq|]. rewrite last_snoc. auto.
  - split; [discriminate|]. intros _. destruct Ho as (_ & ->). exact En.
Qed.


End Loop.

(** * Further properties of the adapter *)

Section Further.
Context {C : Collaborators} {T : Transport}.
Variable max_redirects : Z.

(** ** The method rule *)

(** X1: a status other than 301, 302 and 303 (307 and 308 among them)
    leaves the method as it is. *)
Theorem redirect_method_other_status (request : Request) (response : Response) :
  status_code response ≠ 301%Z -> status_code response ≠ 302%Z ->
  status_code response ≠ 303%Z ->
  redirect_method request response = method request.
Proof.
  intros N1 N2 N3. rewrite redirect_method_unfold. unfold method_rule.
  destruct (Z.eqb_spec (status_code response) 303); [contradiction|].
  destruct (Z.eqb_spec (status_code response) 302); [contradiction|].
  destruct (Z.eqb_spec (status_code response) 301); [contradiction|].
  reflexivity.
Qed.

(** X2: after 301, 302 or 303 the next request is never a POST. *)
Theorem redirect_method_drops_post (request : Request) (response : Response) :
  status_code response = 301%Z \/ status_code response = 302%Z
    \/ status_code response = 303%Z ->
  redirect_method request response ≠ "POST".
Proof.
  intros Hs. rewrite redirect_method_unfold. unfold method_rule.
  destruct (String.eqb_spec (method request) "HEAD") as [EH|NH];
    destruct (String.eqb_spec (method request) "POST") as [EP|NP];
    destruct Hs as [-> | [-> | ->]]; cbn; try discriminate; congruence.
Qed.

Lemma method_rule_idempotent (status : Z) (m : string) :
  method_rule status (method_rule status m) = method_rule status m.
Proof.
  unfold method_rule.
  destruct (Z.eqb status 303), (Z.eqb status 302), (Z.eqb status 301);
    destruct (String.eqb m "HEAD") eqn:EH;
    destruct (String.eqb m "POST") eqn:EP;
    cbn; rewrite ?EH, ?EP; cbn; try reflexivity;
    apply String.eqb_eq in EH; apply String.eqb_eq in EP; congruence.
Qed.

(** X3: the rule is idempotent: a request that already has the derived
    method keeps it under the same response, so a chain of redirects with
    one status changes the method at most once. *)
Theorem redirect_method_settles (request request' : Request) (response : Response) :
  method request' = redirect_method request response ->
  redirect_method request' response = method request'.
Proof.
  intros E. rewrite redirect_method_unfold. rewrite redirect_method_unfold in E.
  rewrite E. apply method_rule_idempotent.
Qed.

(** ** Deriving the next request *)

(** X4: [build_redirect_request] changes nothing in the store but the
    [Headers] objects, to which it adds one object at most (existing ones
    stay as they are); the history, the visited set, the responses and
    their attributes are as before, also when it raises. The limit and
    the visited set are not its business: it raises neither
    [TooManyRedirects] nor [RedirectLoop]. *)
Theorem build_redirect_request_touches (request : Request) (response : Response)
    (w : World) :
  let run := build_redirect_request request response w in
  lists (snd run) = lists w /\ sets (snd run) = sets w
  /\ resps (snd run) = resps w
  /\ history_attr (snd run) = history_attr w /\ next_attr (snd run) = next_attr w
  /\ net (snd run) = net w /\ sent (snd run) = sent w
  /\ hdrs w `prefix_of` hdrs (snd run)
  /\ length (hdrs (snd run)) <= S (length (hdrs w))
  /\ fst run ≠ Raised TooManyRedirects /\ fst run ≠ Raised RedirectLoop.
Proof.
  cbv zeta.
  destruct (build_redirect_request request response w) as [out w'] eqn:E.
  cbn [fst snd].
  destruct (build_redirect_request_frame _ _ _ _ _ E)
    as (? & ? & ? & ? & ? & ? & ? & _ & ?).
  repeat (split; [assumption|]).
  split.
  - pose proof (build_redirect_request_cases request response w) as Hc.
    destruct (redirect_url request response) as [u|e].
    + cbv zeta in Hc.
      destruct (redirect_body request (redirect_method request response));
        rewrite Hc in E; injection E as <- <-; cbn; rewrite length_app; cbn; lia.
    + rewrite Hc in E. injection E as <- <-. lia.
  - split; intros ->;
      destruct (build_redirect_request_raises _ _ _ _ _ E); discriminate.
Qed.

(** ** One call of [send] *)

(** X5: a call in manual mode ends after one pass: it hands exactly one
    request to the transport, the one it was called with, and raises
    neither [TooManyRedirects] nor [RedirectLoop]. *)
Theorem manual_call_sends_once (fuel : nat) (request : Request)
    (history seen_urls : option ref) (options : Options) (w : World) :
  (forall h, history = Some h -> h < length (lists w)) ->
  exists out w',
    send max_redirects (S fuel) request false history seen_urls options w
      = Some (out, w')
    /\ sent w' = sent w ++ [request]
    /\ out ≠ Raised TooManyRedirects /\ out ≠ Raised RedirectLoop.
Proof.
  intros Hh. unfold send.
  destruct (send_prelude_run request history seen_urls w)
    as (w0 & Ep & El & _ & _ & _ & _ & _ & _ & Es & _).
  rewrite Ep.
  assert (Hh0 : from_option id (length (lists w)) history < length (lists w0)).
  { rewrite El. destruct history as [h|]; cbn; [auto | rewrite length_app; cbn; lia]. }
  destruct (manual_loop_once max_redirects fuel options
              (from_option id (length (lists w)) history)
              (from_option id (length (sets w)) seen_urls) request w0 Hh0) as (-> & Hnc).
  destruct (loop_body max_redirects false options _ _ request w0) as [o w1] eqn:Eb.
  pose proof (pass_store _ _ _ _ _ _ _ _ _ Hh0 Eb) as (_ & _ & Ese & _).
  pose proof (pass_outcome _ _ _ _ _ _ _ _ _ Hh0 Eb) as Ho. cbv zeta in Ho.
  cbn [fst snd] in Hnc |- *. eexists _, _. split; [reflexivity|].
  rewrite <- Es. split; [exact Ese|].
  destruct o as [[r|request']|e].
  - split; discriminate.
  - exfalso. exact (Hnc request' eq_refl).
  - destruct e; try (split; discriminate); destruct Ho as (? & _); discriminate.
Qed.

(** X6: when the answer to the request is no redirect, the mode makes no
    difference: either way [send] returns that response after one request,
    derives nothing and attaches no continuation. *)
Theorem send_without_redirect (fuel : nat) (allow_redirects : bool)
    (request : Request) (history seen_urls : option ref) (options : Options)
    (w : World) :
  is_redirect (fst (dispatch_send (hdrs w) request options (net w))) = false ->
  exists w',
    send max_redirects (S fuel) request allow_redirects history seen_urls options w
      = Some (Returned (length (resps w)), w')
    /\ send max_redirects (S fuel) request (negb allow_redirects) history seen_urls
         options w = Some (Returned (length (resps w)), w')
    /\ sent w' = sent w ++ [request] /\ built w' = built w
    /\ next_attr w' = next_attr w.
Proof.
  intros Hr. unfold send.
  destruct (send_prelude_run request history seen_urls w)
    as (w0 & Ep & _ & _ & Eh & Er & _ & En & Ene & Es & Eb).
  rewrite Ep. cbn [send_loop].
  pose proof (loop_body_cases max_redirects allow_redirects options
                (from_option id (length (lists w)) history)
                (from_option id (length (sets w)) seen_urls) request w0) as H1.
  pose proof (loop_body_cases max_redirects (negb allow_redirects) options
                (from_option id (length (lists w)) history)
                (from_option id (length (sets w)) seen_urls) request w0) as H2.
  cbv zeta in H1, H2. rewrite Eh, Ene, Hr in H1, H2. cbn [negb] in H1, H2.
  rewrite H1, H2, Er. eexists. split; [reflexivity|]. split; [reflexivity|].
  cbn. rewrite Es, Eb, En. auto.
Qed.

(** ** Whole chains *)

(** The entry of [send] into its loop, with the history it was given. *)
Lemma send_enters (fuel : nat) (request : Request) (allow_redirects : bool)
    (history seen_urls : option ref) (options : Options) (w : World) :
  (forall h, history = Some h -> h < length (lists w)) ->
  exists w0,
    send max_redirects fuel request allow_redirects history seen_urls options w
    = send_loop max_redirects fuel allow_redirects options
        (from_option id (length (lists w)) history)
        (from_option id (length (sets w)) seen_urls) request w0
    /\ from_option id (length (lists w)) history < length (lists w0)
    /\ sets w0 = match seen_urls with
                 | Some s => <[s := {[url request]} ∪ default ∅ (sets w !! s)]> (sets w)
                 | None => sets w ++ [{[url request]}]
                 end
    /\ hdrs w0 = hdrs w /\ next_attr w0 = next_attr w
    /\ sent w0 = sent w /\ built w0 = built w
    /\ lists w0 !! from_option id (length (lists w)) history
       = Some match history with
              | Some h => default [] (lists w !! h)
              | None => []
              end.
Proof.
  intros Hh. unfold send.
  destruct (send_prelude_run request history seen_urls w)
    as (w0 & Ep & El & Ese & Ehd & _ & _ & En & _ & Es & Eb).
  exists w0. rewrite Ep. split; [reflexivity|].
  split; [|repeat (split; [assumption|])].
  - rewrite El. destruct history as [h|]; cbn; [auto | rewrite length_app; cbn; lia].
  - rewrite El. destruct history as [h|]; cbn.
    + destruct (lookup_lt_is_Some_2 _ _ (Hh h eq_refl)) as [x ->]. reflexivity.
    + apply list_lookup_middle. reflexivity.
Qed.

Lemma loop_keeps_headers (fuel : nat) (allow_redirects : bool) (options : Options)
    (history seen_urls : ref) :
  forall (request : Request) (w : World) (out : outcome ref) (w' : World),
  history < length (lists w) ->
  send_loop max_redirects fuel allow_redirects options history seen_urls request w
    = Some (out, w') ->
  hdrs w `prefix_of` hdrs w'.
Proof.
  induction fuel as [|fuel IH]; intros request w out w' Hh E; [discriminate|].
  cbn [send_loop] in E.
  destruct (loop_body max_redirects allow_redirects options history seen_urls request w)
    as [o w1] eqn:Ep.
  pose proof (pass_store _ _ _ _ _ _ _ _ _ Hh Ep) as (_ & _ & _ & _ & _ & Hp).
  pose proof (pass_outcome _ _ _ _ _ _ _ _ _ Hh Ep) as Ho. cbv zeta in Ho.
  pose proof (pass_history_grows _ _ _ _ _ _ _ _ _ Hh Ep) as Hg.
  destruct o as [[r|request']|e]; try (injection E as <- <-; exact Hp).
  destruct Ho as (_ & Hr & _). destruct (Hg Hr) as (Hh1 & _).
  etransitivity; [exact Hp | exact (IH _ _ _ _ Hh1 E)].
Qed.

(** X7: [send] never writes to a [Headers] object that exists when it is
    called, in either mode and however many redirects it follows: each
    derived request gets an object of its own. *)
Theorem send_keeps_headers_objects (fuel : nat) (request : Request)
    (allow_redirects : bool) (history seen_urls : option ref) (options : Options)
    (w : World) (out : outcome ref) (w' : World) :
  (forall h, history = Some h -> h < length (lists w)) ->
  send max_redirects fuel request allow_redirects history seen_urls options w
    = Some (out, w') ->
  forall h lines, hdrs w !! h = Some lines -> hdrs w' !! h = Some lines.
Proof.
  intros Hh E h lines Hl.
  destruct (send_enters fuel request allow_redirects history seen_urls options w Hh)
    as (w0 & E0 & Hh0 & _ & Ehd & _).
  rewrite E0 in E. apply loop_keeps_headers in E; [|exact Hh0].
  rewrite Ehd in E. exact (prefix_lookup_Some _ _ _ _ Hl E).
Qed.

Lemma auto_loop_attaches_nothing (fuel : nat) (options : Options)
    (history seen_urls : ref) :
  forall (request : Request) (w : World) (out : outcome ref) (w' : World),
  history < length (lists w) ->
  send_loop max_redirects fuel true options history seen_urls request w
    = Some (out, w') ->
  next_attr w' = next_attr w.
Proof.
  induction fuel as [|fuel IH]; intros request w out w' Hh E; [discriminate|].
  cbn [send_loop] in E.
  destruct (loop_body max_redirects true options history seen_urls request w)
    as [o w1] eqn:Ep.
  pose proof (pass_outcome _ _ _ _ _ _ _ _ _ Hh Ep) as Ho. cbv zeta in Ho.
  pose proof (pass_history_grows _ _ _ _ _ _ _ _ _ Hh Ep) as Hg.
  destruct o as [[r|request']|e].
  - injection E as <- <-. destruct Ho as (_ & _ & Ho).
    destruct (is_redirect _); [destruct Ho; discriminate | apply Ho].
  - destruct Ho as (_ & Hr & _ & En & _). destruct (Hg Hr) as (Hh1 & _).
    rewrite (IH _ _ _ _ Hh1 E). exact En.
  - injection E as <- <-. destruct e; apply Ho.
Qed.

(** X8: a call that follows redirects attaches no continuation to any
    response: [response.next] is written in manual mode only. *)
Theorem automatic_call_attaches_nothing (fuel : nat) (request : Request)
    (history seen_urls : option ref) (options : Options)
    (w : World) (out : outcome ref) (w' : World) :
  (forall h, history = Some h -> h < length (lists w)) ->
  send max_redirects fuel request true history seen_urls options w = Some (out, w') ->
  next_attr w' = next_attr w.
Proof.
  intros Hh E.
  destruct (send_enters fuel request true history seen_urls options w Hh)
    as (w0 & E0 & Hh0 & _ & _ & En & _).
  rewrite E0 in E. rewrite <- En. exact (auto_loop_attaches_nothing _ _ _ _ _ _ _ _ Hh0 E).
Qed.

Lemma loop_visited (fuel : nat) (allow_redirects : bool) (options : Options)
    (history seen_urls : ref) :
  forall (request : Request) (w : World) (out : outcome ref) (w' : World),
  history < length (lists w) -> seen_urls < length (sets w) ->
  send_loop max_redirects fuel allow_redirects options history seen_urls request w
    = Some (out, w') ->
  exists ss,
    sent w' = sent w ++ request :: ss
    /\ default ∅ (sets w !! seen_urls) ⊆ default ∅ (sets w' !! seen_urls)
    /\ forall q, q ∈ ss -> url q ∈ default ∅ (sets w' !! seen_urls).
Proof.
  induction fuel as [|fuel IH]; intros request w out w' Hh Hs E; [discriminate|].
  cbn [send_loop] in E.
  destruct (loop_body max_redirects allow_redirects options history seen_urls request w)
    as [o w1] eqn:Ep.
  pose proof (pass_store _ _ _ _ _ _ _ _ _ Hh Ep) as (_ & _ & Es & _).
  pose proof (pass_outcome _ _ _ _ _ _ _ _ _ Hh Ep) as Ho. cbv zeta in Ho.
  pose proof (pass_history_grows _ _ _ _ _ _ _ _ _ Hh Ep) as Hg.
  assert (Hstop : sets w1 = sets w ->
            exists ss, sent w1 = sent w ++ request :: ss
              /\ default ∅ (sets w !! seen_urls) ⊆ default ∅ (sets w1 !! seen_urls)
              /\ forall q, q ∈ ss -> url q ∈ default ∅ (sets w1 !! seen_urls)).
  { intros ->. exists []. split; [exact Es|]. split; [reflexivity|].
    intros q Hq. inversion Hq. }
  destruct o as [[r|request']|e].
  - injection E as <- <-. apply Hstop, Ho.
  - destruct Ho as (-> & Hr & _). destruct (Hg Hr) as (Hh1 & _).
    destruct (pass_visited_grows _ _ _ _ _ _ _ _ Hh Hs Ep) as (Hs1 & Ev & _).
    destruct (IH _ _ _ _ Hh1 Hs1 E) as (ss & Ess & Hsub & Hin).
    exists (request' :: ss). rewrite Ess, Es, <- app_assoc.
    split; [reflexivity|]. rewrite Ev in Hsub.
    split; [intros u Hu; apply Hsub, elem_of_union_r, Hu|].
    intros q Hq. apply elem_of_cons in Hq as [-> | Hq]; [|exact (Hin q Hq)].
    apply Hsub, elem_of_union_l, elem_of_singleton. reflexivity.
  - injection E as <- <-. apply Hstop. destruct e; apply Ho.
Qed.

(** X9: the visited set only grows, and after a call of [send] it holds
    the URL of every request the call handed to the transport, the first
    one included. *)
Theorem visited_set_covers_sent (fuel : nat) (request : Request)
    (allow_redirects : bool) (history seen_urls : option ref) (options : Options)
    (w : World) (out : outcome ref) (w' : World) :
  (forall h, history = Some h -> h < length (lists w)) ->
  (forall s, seen_urls = Some s -> s < length (sets w)) ->
  send max_redirects fuel request allow_redirects history seen_urls options w
    = Some (out, w') ->
  let s := from_option id (length (sets w)) seen_urls in
  let before := match seen_urls with
                | Some s0 => default ∅ (sets w !! s0)
                | None => ∅
                end in
  exists ss,
    sent w' = sent w ++ request :: ss
    /\ before ⊆ default ∅ (sets w' !! s)
    /\ forall q, q ∈ request :: ss -> url q ∈ default ∅ (sets w' !! s).
Proof.
  intros Hh Hs E s before. unfold send in E.
  destruct (send_prelude_valid request history seen_urls w Hh Hs)
    as (w0 & Ep & Hh0 & Hs0 & Ev & _ & _ & _ & _ & _ & _ & _ & Ese & _).
  rewrite Ep in E. fold s in E, Hs0, Ev.
  destruct (loop_visited _ _ _ _ _ _ _ _ _ Hh0 Hs0 E) as (ss & Ess & Hsub & Hin).
  rewrite Ev in Hsub. fold before in Hsub.
  exists ss. rewrite <- Ese. split; [exact Ess|].
  split; [intros u Hu; apply Hsub, elem_of_union_r, Hu|].
  intros q Hq. apply elem_of_cons in Hq as [-> | Hq]; [|exact (Hin q Hq)].
  apply Hsub, elem_of_union_l, elem_of_singleton. reflexivity.
Qed.

Lemma pass_derived (allow_redirects : bool) (options : Options)
    (history seen_urls : ref) (request : Request) (w : World)
    (out : outcome step) (w' : World) :
  loop_body max_redirects allow_redirects options history seen_urls request w
    = (out, w') ->
  match out with
  | Returned (Continue request') =>
      is_streaming request' = false
      /\ headers request' = length (hdrs w)
      /\ hdrs w' = hdrs w ++ [derived_lines request (url request')
                                (default [] (hdrs w !! headers request))]
  | Raised RedirectBodyUnavailable => is_streaming request = true
  | _ => True
  end.
Proof.
  intros E.
  pose proof (loop_body_cases max_redirects allow_redirects options history
                seen_urls request w) as Hc.
  cbv zeta in Hc.
  destruct (is_redirect (fst (dispatch_send (hdrs w) request options (net w)))).
  2:{ cbn [negb] in Hc. rewrite Hc in E. injection E as <- <-. exact I. }
  cbn [negb] in Hc.
  match type of Hc with
  | match build_redirect_request _ _ ?a with _ => _ end =>
      destruct (build_redirect_request request
                  (fst (dispatch_send (hdrs w) request options (net w))) a)
        as [[request'|e] w4] eqn:Eb
  end.
  - destruct (build_redirect_request_run _ _ _ _ _ Eb) as (_ & _ & _ & Hns & Eh & Ew).
    cbn [hdrs upd_lists received] in Eh, Ew.
    destruct allow_redirects; cbn [negb] in Hc.
    + destruct (max_redirects <? _)%Z; [rewrite Hc in E; injection E as <- <-; exact I|].
      destruct (bool_decide _); rewrite Hc in E; injection E as <- <-; [exact I|].
      split; [exact Hns|]. split; [exact Eh|]. rewrite Ew. reflexivity.
    + rewrite Hc in E. injection E as <- <-. exact I.
  - rewrite Hc in E. injection E as <- <-.
    destruct e; try exact I.
    pose proof (build_redirect_request_cases request
                  (fst (dispatch_send (hdrs w) request options (net w)))
                  (upd_lists (fun ls => <[history := default [] (ls !! history)
                                           ++ [length (resps w)]]> ls)
                     (received history request options w))) as Hb.
    unfold redirect_url in Hb.
    destruct (Headers_getitem _ "Location").
    + cbv zeta in Hb. rewrite redirect_body_unfold in Hb.
      destruct (negb _ && _); [rewrite Hb in Eb; discriminate|].
      unfold is_streaming. destruct (body request); [|reflexivity].
      rewrite Hb in Eb. discriminate.
    + rewrite Hb in Eb. discriminate.
Qed.

Lemma loop_body_unavailable (fuel : nat) (allow_redirects : bool) (options : Options)
    (history seen_urls : ref) :
  forall (request : Request) (w : World) (w' : World),
  history < length (lists w) ->
  send_loop max_redirects fuel allow_redirects options history seen_urls request w
    = Some (Raised RedirectBodyUnavailable, w') ->
  is_streaming request = true
  /\ sent w' = sent w ++ [request] /\ built w' = built w.
Proof.
  induction fuel as [|fuel IH]; intros request w w' Hh E; [discriminate|].
  cbn [send_loop] in E.
  destruct (loop_body max_redirects allow_redirects options history seen_urls request w)
    as [o w1] eqn:Ep.
  pose proof (pass_store _ _ _ _ _ _ _ _ _ Hh Ep) as (_ & _ & Es & _).
  pose proof (pass_outcome _ _ _ _ _ _ _ _ _ Hh Ep) as Ho. cbv zeta in Ho.
  pose proof (pass_history_grows _ _ _ _ _ _ _ _ _ Hh Ep) as Hg.
  pose proof (pass_derived _ _ _ _ _ _ _ _ Ep) as Hd.
  destruct o as [[r|request']|e]; [discriminate | |].
  - destruct Ho as (_ & Hr & _). destruct (Hg Hr) as (Hh1 & _).
    destruct (IH _ _ _ Hh1 E) as (Hst & _). destruct Hd as (Hns & _). congruence.
  - injection E as -> <-. destruct Ho as (_ & Eb & _). auto.
Qed.

(** X10: [RedirectBodyUnavailable] can only come from the request [send]
    was called with: a derived request holds its body as bytes, so the
    error means that this first request had a streaming body, that it was
    the only request sent and that no request was derived. *)
Theorem body_unavailable_only_at_first (fuel : nat) (request : Request)
    (allow_redirects : bool) (history seen_urls : option ref) (options : Options)
    (w w' : World) :
  (forall h, history = Some h -> h < length (lists w)) ->
  send max_redirects fuel request allow_redirects history seen_urls options w
    = Some (Raised RedirectBodyUnavailable, w') ->
  is_streaming request = true
  /\ sent w' = sent w ++ [request] /\ built w' = built w.
Proof.
  intros Hh E.
  destruct (send_enters fuel request allow_redirects history seen_urls options w Hh)
    as (w0 & E0 & Hh0 & _ & _ & _ & Es & Eb & _).
  rewrite E0 in E. rewrite <- Es, <- Eb.
  exact (loop_body_unavailable _ _ _ _ _ _ _ _ Hh0 E).
Qed.

Lemma length_removelast_nonempty {A} (l : list A) :
  l ≠ [] -> S (length (removelast l)) = length l.
Proof.
  intros Hne. destruct l as [|x l]; [congruence|].
  rewrite (app_removelast_last x Hne) at 2. rewrite length_app. cbn [length]. lia.
Qed.

(** X11: a new automatic chain with a limit that is not negative hands at
    most [max_redirects + 1] requests to the transport, whatever its
    outcome; when it returns a response, the history of that response has
    one entry less than requests were sent. *)
Theorem automatic_chain_sends_bounded (fuel : nat) (request : Request)
    (options : Options) (w : World) (out : outcome ref) (w' : World) :
  (0 <= max_redirects)%Z ->
  send max_redirects fuel request true None None options w = Some (out, w') ->
  exists ss,
    sent w' = sent w ++ ss
    /\ 1 <= length ss /\ (Z.of_nat (length ss) <= max_redirects + 1)%Z
    /\ (forall r, out = Returned r ->
        exists l items,
          history_attr w' !! r = Some l /\ lists w' !! l = Some items
          /\ length ss = length items + 1).
Proof.
  intros Hmax E.
  destruct (send_enters fuel request true None None options w
              ltac:(intros; discriminate))
    as (w0 & E0 & Hh0 & _ & _ & _ & Es & _ & Ei).
  rewrite E0 in E. cbn [from_option id] in E, Hh0, Ei.
  pose proof (auto_loop_trace max_redirects fuel options (length (lists w))
                (length (sets w)) request w0 out w' Hh0) as Ht.
  rewrite Ei in Ht. cbn [from_option id length] in Ht.
  destruct (Ht Hmax E) as (bs & _ & Hout). cbv zeta in Hout. rewrite Es in Hout.
  destruct out as [r|[]]; cbn [Nat.add] in Hout.
  - destruct Hout as (Ess & l & items & Ha & Hl & Hlen & Hle).
    exists (request :: bs). split; [exact Ess|]. cbn [length].
    split; [lia|]. split; [lia|].
    intros r' [= <-]. exists l, items. repeat split; auto; lia.
  - destruct Hout as (Ess & Hne & Hlen).
    exists (request :: removelast bs). split; [exact Ess|]. cbn [length].
    pose proof (length_removelast_nonempty bs Hne).
    split; [lia|]. split; [lia | discriminate].
  - destruct Hout as (Ess & Hne & Hlen).
    exists (request :: removelast bs). split; [exact Ess|]. cbn [length].
    pose proof (length_removelast_nonempty bs Hne).
    split; [lia|]. split; [lia | discriminate].
  - destruct Hout as (Ess & Hlen). exists (request :: bs).
    split; [exact Ess|]. cbn [length]. split; [lia|]. split; [lia | discriminate].
  - destruct Hout as (Ess & Hlen). exists (request :: bs).
    split; [exact Ess|]. cbn [length]. split; [lia|]. split; [lia | discriminate].
Qed.

(** X12: the limit is checked before the visited set: a new automatic
    chain raises [RedirectLoop] only for a derived request that is within
    the limit, so a request that is over the limit and goes to a visited
    URL gets [TooManyRedirects], and with limit 0 there is no
    [RedirectLoop] at all. *)
Theorem redirect_loop_within_limit (fuel : nat) (request : Request)
    (options : Options) (w w' : World) :
  (0 <= max_redirects)%Z ->
  send max_redirects fuel request true None None options w
    = Some (Raised RedirectLoop, w') ->
  exists bs,
    built w' = built w ++ bs /\ bs ≠ []
    /\ (Z.of_nat (length bs) <= max_redirects)%Z
    /\ (0 < max_redirects)%Z.
Proof.
  intros Hmax E.
  destruct (send_enters fuel request true None None options w
              ltac:(intros; discriminate))
    as (w0 & E0 & Hh0 & _ & _ & _ & _ & Eb & Ei).
  rewrite E0 in E. cbn [from_option id] in E, Hh0, Ei.
  pose proof (auto_loop_trace max_redirects fuel options (length (lists w))
                (length (sets w)) request w0 (Raised RedirectLoop) w' Hh0) as Ht.
  rewrite Ei in Ht. cbn [from_option id length] in Ht.
  destruct (Ht Hmax E) as (bs & Ebs & _ & Hne & Hlen). cbn [Nat.add] in Hlen.
  exists bs. rewrite <- Eb. split; [exact Ebs|]. split; [exact Hne|].
  split; [exact Hlen|]. destruct bs; [congruence | cbn [length] in Hlen; lia].
Qed.

Lemma derived_carries (request : Request) (url' : URL) (lines : Headers) :
  Headers_getitem (derived_lines request url' lines) "Authorization" ≠ None ->
  url_origin url' = url_origin (url request)
  /\ Headers_getitem lines "Authorization" ≠ None.
Proof.
  unfold derived_lines. case_bool_decide as Eo; [auto|].
  rewrite getitem_without_eq. congruence.
Qed.

(** A [Headers] object that exists keeps its lines to the end of the
    loop, so a request carries credentials at the end exactly when it did
    when its object was there. *)
Lemma carries_later (w w' : World) (q : Request) :
  headers q < length (hdrs w) -> hdrs w `prefix_of` hdrs w' ->
  carries_authorization w' q <-> carries_authorization w q.
Proof.
  intros Hq Hpre. unfold carries_authorization.
  destruct (lookup_lt_is_Some_2 _ _ Hq) as [x Hx].
  rewrite (prefix_lookup_Some _ _ _ _ Hx Hpre), Hx. reflexivity.
Qed.

Lemma loop_authorization (fuel : nat) (allow_redirects : bool) (options : Options)
    (history seen_urls : ref) :
  forall (request : Request) (w : World) (out : outcome ref) (w' : World),
  history < length (lists w) -> headers request < length (hdrs w) ->
  send_loop max_redirects fuel allow_redirects options history seen_urls request w
    = Some (out, w') ->
  exists ss,
    sent w' = sent w ++ request :: ss
    /\ forall i j qi qj,
         (request :: ss) !! i = Some qi -> (request :: ss) !! j = Some qj ->
         i <= j -> carries_authorization w' qj ->
         carries_authorization w' qi
         /\ url_origin (url qj) = url_origin (url qi).
Proof.
  induction fuel as [|fuel IH]; intros request w out w' Hh Hhd E; [discriminate|].
  cbn [send_loop] in E.
  destruct (loop_body max_redirects allow_redirects options history seen_urls request w)
    as [o w1] eqn:Ep.
  pose proof (pass_store _ _ _ _ _ _ _ _ _ Hh Ep) as (_ & _ & Es & _ & _ & Hp).
  pose proof (pass_outcome _ _ _ _ _ _ _ _ _ Hh Ep) as Ho. cbv zeta in Ho.
  pose proof (pass_history_grows _ _ _ _ _ _ _ _ _ Hh Ep) as Hg.
  pose proof (pass_derived _ _ _ _ _ _ _ _ Ep) as Hd.
  assert (Hone : forall (i j : nat) (qi qj : Request),
            [request] !! i = Some qi -> [request] !! j = Some qj ->
            i <= j -> carries_authorization w' qj ->
            carries_authorization w' qi
            /\ url_origin (url qj) = url_origin (url qi)).
  { intros i j qi qj Hi Hj _ Hc.
    destruct i; [|destruct i; discriminate]. destruct j; [|destruct j; discriminate].
    injection Hi as <-. injection Hj as <-. auto. }
  destruct o as [[r|request']|e];
    try (injection E as <- <-; exists []; split; [exact Es | exact Hone]).
  clear Hone.
  destruct Ho as (_ & Hr & _). destruct (Hg Hr) as (Hh1 & _).
  destruct Hd as (_ & Eh & Ehd).
  assert (Hhd1 : headers request' < length (hdrs w1))
    by (rewrite Ehd, Eh, length_app; cbn; lia).
  destruct (IH _ _ _ _ Hh1 Hhd1 E) as (ss & Ess & Hall).
  pose proof (loop_keeps_headers _ _ _ _ _ _ _ _ _ Hh1 E) as Hpre.
  assert (Hkey : carries_authorization w1 request' ->
                 carries_authorization w request
                 /\ url_origin (url request') = url_origin (url request)).
  { unfold carries_authorization. rewrite Ehd, Eh.
    rewrite list_lookup_middle by reflexivity. cbn [from_option id].
    intros Hc. destruct (derived_carries _ _ _ Hc). auto. }
  exists (request' :: ss). rewrite Ess, Es, <- app_assoc. split; [reflexivity|].
  intros i j qi qj Hi Hj Hij Hc.
  destruct i as [|i].
  - injection Hi as <-. destruct j as [|j]; [injection Hj as <-; auto|].
    cbn [lookup list_lookup] in Hj.
    destruct (Hall 0 j request' qj eq_refl Hj ltac:(lia) Hc) as (Hc1 & Eo1).
    apply (carries_later w1 w' request' Hhd1 Hpre) in Hc1.
    destruct (Hkey Hc1) as (Hc0 & Eo0).
    split; [|congruence].
    apply (carries_later w w' request Hhd); [|exact Hc0].
    etransitivity; [exact Hp | exact Hpre].
  - destruct j as [|j]; [lia|].
    exact (Hall i j qi qj Hi Hj ltac:(lia) Hc).
Qed.

(** X13: credentials stay with the origin of the first request and do not
    come back: when a request that [send] hands to the transport carries
    an Authorization header, every request of the call before it, the one
    [send] was called with included, carries one too and has the same
    origin. So once a redirect has left the origin, no later request
    carries the header, also when a later redirect goes back to the
    origin. *)
Theorem authorization_stays_with_origin (fuel : nat) (request : Request)
    (allow_redirects : bool) (history seen_urls : option ref) (options : Options)
    (w : World) (out : outcome ref) (w' : World) :
  (forall h, history = Some h -> h < length (lists w)) ->
  headers request < length (hdrs w) ->
  send max_redirects fuel request allow_redirects history seen_urls options w
    = Some (out, w') ->
  exists ss,
    sent w' = sent w ++ request :: ss
    /\ (carries_authorization w' request <-> carries_authorization w request)
    /\ forall i j qi qj,
         (request :: ss) !! i = Some qi -> (request :: ss) !! j = Some qj ->
         i <= j -> carries_authorization w' qj ->
         carries_authorization w' qi
         /\ url_origin (url qj) = url_origin (url qi).
Proof.
  intros Hh Hhd E.
  destruct (send_enters fuel request allow_redirects history seen_urls options w Hh)
    as (w0 & E0 & Hh0 & _ & Ehd & _ & Es & _).
  rewrite E0 in E. rewrite <- Ehd in Hhd.
  destruct (loop_authorization _ _ _ _ _ _ _ _ _ Hh0 Hhd E) as (ss & Ess & Hall).
  pose proof (loop_keeps_headers _ _ _ _ _ _ _ _ _ Hh0 E) as Hpre.
  exists ss. rewrite <- Es. split; [exact Ess|]. split; [|exact Hall].
  rewrite (carries_later w0 w' request Hhd Hpre).
  unfold carries_authorization. rewrite Ehd. reflexivity.
Qed.

(** ** Resuming a suspended chain *)

Lemma loop_blind (fuel : nat) (allow_redirects : bool) (options : Options)
    (history seen_urls : ref) :
  forall (request : Request) (w1 w2 : World) (out : outcome ref) (w2' : World),
  forget_next w1 = forget_next w2 ->
  send_loop max_redirects fuel allow_redirects options history seen_urls request w2
    = Some (out, w2') ->
  exists w1',
    send_loop max_redirects fuel allow_redirects options history seen_urls request w1
      = Some (out, w1')
    /\ forget_next w1' = forget_next w2'.
Proof.
  induction fuel as [|fuel IH]; intros request w1 w2 out w2' Ef E; [discriminate|].
  cbn [send_loop] in E |- *.
  destruct (loop_body_blind max_redirects allow_redirects options history seen_urls
              request w1 w2 Ef) as (Efst & Esnd).
  destruct (loop_body max_redirects allow_redirects options history seen_urls request w1)
    as [o1 w1a], (loop_body max_redirects allow_redirects options history seen_urls
                    request w2) as [o2 w2a].
  cbn [fst snd] in Efst, Esnd. subst o2.
  destruct o1 as [[r|request']|e].
  - injection E as <- <-. eauto.
  - exact (IH _ _ _ _ _ Esnd E).
  - injection E as <- <-. eauto.
Qed.

Lemma loop_sent (fuel : nat) (allow_redirects : bool) (options : Options)
    (history seen_urls : ref) :
  forall (request : Request) (w : World) (out : outcome ref) (w' : World),
  history < length (lists w) ->
  send_loop max_redirects fuel allow_redirects options history seen_urls request w
    = Some (out, w') ->
  exists ss, sent w' = sent w ++ request :: ss.
Proof.
  induction fuel as [|fuel IH]; intros request w out w' Hh E; [discriminate|].
  cbn [send_loop] in E.
  destruct (loop_body max_redirects allow_redirects options history seen_urls request w)
    as [o w1] eqn:Ep.
  pose proof (pass_store _ _ _ _ _ _ _ _ _ Hh Ep) as (_ & _ & Es & _).
  pose proof (pass_outcome _ _ _ _ _ _ _ _ _ Hh Ep) as Ho. cbv zeta in Ho.
  pose proof (pass_history_grows _ _ _ _ _ _ _ _ _ Hh Ep) as Hg.
  destruct o as [[r|request']|e]; try (injection E as <- <-; exists []; exact Es).
  destruct Ho as (_ & Hr & _). destruct (Hg Hr) as (Hh1 & _).
  destruct (IH _ _ _ _ Hh1 E) as (ss & Ess).
  exists (request' :: ss). rewrite Ess, Es, <- app_assoc. reflexivity.
Qed.

(** X14: [response.next()] called without arguments follows redirects
    (the keyword was popped before the options were bound). If the
    automatic mode gets past the first redirect, then a first step in
    manual mode followed by that call ends as the automatic mode does: the
    same outcome and the same store, the [next] attributes apart. *)
Theorem resume_follows_redirects (fuel : nat) (request : Request)
    (options : Options) (w : World) (out : outcome ref) (w_a : World) :
  send max_redirects (S fuel) request true None None options w = Some (out, w_a) ->
  length (sent w) + 2 <= length (sent w_a) ->
  exists r w1 p w_m,
    send max_redirects 1 request false None None options w = Some (Returned r, w1)
    /\ next_attr w1 !! r = Some p
    /\ sent w_a !! S (length (sent w)) = Some (p_request p)
    /\ call_next max_redirects fuel p true w1 = Some (out, w_m)
    /\ forget_next w_m = forget_next w_a.
Proof.
  intros E Hsent.
  assert (Em : forall o w1, loop_body max_redirects false options (length (lists w))
                 (length (sets w)) request
                 (snd (send_prelude request None None w)) = (Returned (Break o), w1) ->
               send max_redirects 1 request false None None options w
               = Some (Returned o, w1)).
  { intros o w1 H. unfold send.
    destruct (send_prelude_run request None None w) as (x & Ep & _).
    rewrite Ep in H |- *. cbn [snd from_option id] in H |- *. cbn [send_loop].
    rewrite H. reflexivity. }
  unfold send in E.
  destruct (send_prelude_run request None None w)
    as (w0 & Ep & El & _ & _ & _ & _ & _ & _ & Es & _).
  rewrite Ep in E, Em. cbn [snd from_option id] in E, Em.
  assert (Hh0 : length (lists w) < length (lists w0))
    by (rewrite El, length_app; cbn; lia).
  cbn [send_loop] in E.
  destruct (loop_body max_redirects true options (length (lists w)) (length (sets w))
              request w0) as [o w1a] eqn:Epa.
  pose proof (pass_store _ _ _ _ _ _ _ _ _ Hh0 Epa) as (_ & _ & Ese & _).
  pose proof (pass_outcome _ _ _ _ _ _ _ _ _ Hh0 Epa) as Ho. cbv zeta in Ho.
  pose proof (pass_history_grows _ _ _ _ _ _ _ _ _ Hh0 Epa) as Hg.
  pose proof (manual_pass_of_auto _ _ _ _ _ _ _ _ Epa) as Hm.
  destruct o as [[r|request']|e].
  - injection E as <- <-. rewrite Ese, Es, length_app in Hsent. cbn in Hsent. lia.
  - destruct Ho as (_ & Hr & _). destruct (Hg Hr) as (Hh1 & _).
    destruct Hm as (w4 & Hm & Ew).
    destruct (loop_sent _ _ _ _ _ _ _ _ _ Hh1 E) as (ss & Ess).
    destruct (loop_blind fuel true options (length (lists w)) (length (sets w))
                request'
                (snd (set_add (length (sets w)) (url request')
                        (upd_next_attr (fun m => <[length (resps w0) :=
                           {| p_request := request'; p_options := options;
                              p_seen_urls := length (sets w);
                              p_history := length (lists w) |}]> m) w4)))
                w1a out w_a) as (w_m & Erun & Ef); [|exact E|].
    { rewrite Ew. apply primitives_blind. apply forget_next_upd. }
    eexists _, _, _, w_m. split; [exact (Em _ _ Hm)|].
    split; [apply lookup_insert_eq|].
    split.
    { rewrite Ess, Ese, Es, <- app_assoc. cbn [app p_request].
      rewrite lookup_app_r by lia.
      replace (S (length (sent w)) - length (sent w)) with 1 by lia. reflexivity. }
    split; [|exact Ef]. rewrite call_next_unfold. exact Erun.
  - injection E as <- <-. rewrite Ese, Es, length_app in Hsent. cbn in Hsent. lia.
Qed.

(** ** Termination *)

(** X16: a call that follows redirects always ends, whatever the
    transport answers: with [n] responses in the history it is given, more
    than [max_redirects - n] passes are never needed, and one pass is
    enough when the history is over the limit already. *)
Theorem automatic_call_ends (fuel : nat) (request : Request)
    (history seen_urls : option ref) (options : Options) (w : World) :
  (forall h, history = Some h -> h < length (lists w)) ->
  (max_redirects
   - Z.of_nat (length match history with
                      | Some h => default [] (lists w !! h)
                      | None => []
                      end) < Z.of_nat fuel)%Z ->
  0 < fuel ->
  exists out w',
    send max_redirects fuel request true history seen_urls options w
      = Some (out, w').
Proof.
  intros Hh Hf Hpos.
  destruct (send_enters fuel request true history seen_urls options w Hh)
    as (w0 & E0 & Hh0 & _ & _ & _ & _ & _ & Ei).
  rewrite E0. apply auto_loop_terminates; [exact Hh0 | | exact Hpos].
  rewrite Ei. exact Hf.
Qed.

End Further.

(** * The chain as the transport sees it *)

Section Chains.
Context {C : Collaborators} {T : Transport}.
Variable max_redirects : Z.

Lemma take_prefix {A} (l1 l2 : list A) :
  l1 `prefix_of` l2 -> take (length l1) l2 = l1.
Proof. intros [k ->]. apply take_app_length. Qed.

Lemma answers_cons (options : Options) (stored : list Headers) (k : nat)
    (st : TState) (q : Request) (rest : list Request) :
  answers options stored k st (q :: rest)
  = (fst (dispatch_send (take k stored) q options st)
       :: fst (answers options stored (S k)
                 (snd (dispatch_send (take k stored) q options st)) rest),
     snd (answers options stored (S k)
            (snd (dispatch_send (take k stored) q options st)) rest)).
Proof. reflexivity. Qed.

Lemma answers_length (options : Options) (stored : list Headers)
    (requests : list Request) :
  forall (k : nat) (st : TState),
  length (fst (answers options stored k st requests)) = length requests.
Proof.
  induction requests as [|q rest IH]; intros k st; [reflexivity|].
  cbn [answers fst length]. rewrite IH. reflexivity.
Qed.

(** A pass that derives a request derives it from the request it has sent
    and from the redirect it has received. *)
Lemma pass_derivation (allow_redirects : bool) (options : Options)
    (history seen_urls : ref) (request : Request) (w : World)
    (out : outcome step) (w' : World) (b : Request) :
  loop_body max_redirects allow_redirects options history seen_urls request w
    = (out, w') ->
  built w' = built w ++ [b] ->
  let response := fst (dispatch_send (hdrs w) request options (net w)) in
  is_redirect response = true
  /\ method b = redirect_method request response
  /\ redirect_url request response = Returned (url b).
Proof.
  intros E Eb.
  pose proof (loop_body_cases max_redirects allow_redirects options history
                seen_urls request w) as Hc.
  cbv zeta in Hc |- *.
  assert (Hno : built w ≠ built w ++ [b]).
  { intros H. rewrite <- (app_nil_r (built w)) in H at 1.
    apply app_inv_head in H. discriminate. }
  destruct (is_redirect (fst (dispatch_send (hdrs w) request options (net w)))).
  2:{ cbn [negb] in Hc. rewrite Hc in E. injection E as <- <-.
      cbn in Eb. contradiction. }
  cbn [negb] in Hc.
  match type of Hc with
  | match build_redirect_request _ _ ?a with _ => _ end =>
      destruct (build_redirect_request request
                  (fst (dispatch_send (hdrs w) request options (net w))) a)
        as [[request'|e] w4] eqn:Ebuild
  end.
  - destruct (build_redirect_request_run _ _ _ _ _ Ebuild) as (Eu & Em & _).
    apply build_redirect_request_frame in Ebuild.
    destruct Ebuild as (_ & _ & _ & _ & _ & _ & _ & Ebu & _).
    cbn [upd_lists received built] in Ebu.
    assert (Eb4 : built w' = built w4).
    { destruct allow_redirects; cbn [negb] in Hc.
      - destruct (max_redirects <? _)%Z; [|destruct (bool_decide _)];
          rewrite Hc in E; injection E as <- <-; reflexivity.
      - rewrite Hc in E; injection E as <- <-; reflexivity. }
    rewrite Eb4, Ebu in Eb. apply app_inv_head in Eb. injection Eb as <-.
    auto.
  - apply build_redirect_request_frame in Ebuild.
    destruct Ebuild as (_ & _ & _ & _ & _ & _ & _ & Ebu & _).
    cbn [upd_lists received built] in Ebu.
    rewrite Hc in E. injection E as <- <-. rewrite Ebu in Eb. contradiction.
Qed.

(** An automatic chain, from any pass on, as an exchange with the
    transport: the requests sent ([ss] after the current one), the
    responses received ([rs], the transport's answers to these requests in
    order) and the requests derived ([bs], each from the request sent and
    the redirect received at its place). Every response but the last is a
    redirect that was followed. *)
Lemma auto_loop_exchanges (fuel : nat) (options : Options) (history seen_urls : ref) :
  forall (request : Request) (w : World) (out : outcome ref) (w' : World),
  history < length (lists w) ->
  send_loop max_redirects fuel true options history seen_urls request w
    = Some (out, w') ->
  exists ss rs bs,
    sent w' = sent w ++ request :: ss
    /\ resps w' = resps w ++ rs
    /\ built w' = built w ++ bs
    /\ answers options (hdrs w') (length (hdrs w)) (net w) (request :: ss)
       = (rs, net w')
    /\ (forall i b, bs !! i = Some b ->
          exists q response,
            (request :: ss) !! i = Some q /\ rs !! i = Some response
            /\ is_redirect response = true
            /\ method b = redirect_method q response
            /\ redirect_url q response = Returned (url b))
    /\ match out with
       | Returned r =>
           ss = bs /\ r = length (resps w) + length bs
           /\ exists response,
                rs !! length bs = Some response /\ is_redirect response = false
       | Raised TooManyRedirects | Raised RedirectLoop =>
           ss = removelast bs /\ bs ≠ []
       | Raised _ =>
           ss = bs
           /\ exists response,
                rs !! length bs = Some response /\ is_redirect response = true
       end.
Proof.
  induction fuel as [|fuel IH]; intros request w out w' Hh E; [discriminate|].
  cbn [send_loop] in E.
  destruct (loop_body max_redirects true options history seen_urls request w)
    as [o w1] eqn:Ep.
  pose proof (pass_store _ _ _ _ _ _ _ _ _ Hh Ep) as (Er & En & Es & _ & _ & Hp).
  pose proof (pass_outcome _ _ _ _ _ _ _ _ _ Hh Ep) as Ho. cbv zeta in Ho.
  pose proof (pass_history_grows _ _ _ _ _ _ _ _ _ Hh Ep) as Hg.
  pose proof (pass_derived _ _ _ _ _ _ _ _ _ Ep) as Hd.
  pose proof (fun b => pass_derivation _ _ _ _ _ _ _ _ b Ep) as Hfrom.
  cbv zeta in Hfrom.
  set (answer := dispatch_send (hdrs w) request options (net w)) in *.
  assert (Hlast : forall w2, hdrs w `prefix_of` hdrs w2 -> net w2 = snd answer ->
            answers options (hdrs w2) (length (hdrs w)) (net w) [request]
            = ([fst answer], net w2)).
  { intros w2 Hpre En2. cbn [answers fst snd]. rewrite (take_prefix _ _ Hpre).
    fold answer. rewrite En2. reflexivity. }
  assert (Hone : forall b, built w1 = built w ++ [b] ->
            forall i b0, [b] !! i = Some b0 ->
            exists q response,
              [request] !! i = Some q /\ [fst answer] !! i = Some response
              /\ is_redirect response = true
              /\ method b0 = redirect_method q response
              /\ redirect_url q response = Returned (url b0)).
  { intros b Eb i b0 Hi. destruct i; [|destruct i; discriminate].
    injection Hi as <-. destruct (Hfrom b Eb) as (? & ? & ?).
    exists request, (fst answer). auto. }
  destruct o as [[r|request']|e].
  - injection E as <- <-. destruct Ho as (-> & _ & Ho).
    destruct (is_redirect (fst answer)) eqn:Hr; [destruct Ho; discriminate|].
    destruct Ho as (Eb & _).
    exists [], [fst answer], []. rewrite app_nil_r.
    split; [exact Es|]. split; [exact Er|]. split; [exact Eb|].
    split; [exact (Hlast w1 Hp En)|].
    split; [intros i b Hi; destruct i; discriminate|].
    split; [reflexivity|]. split; [cbn; lia|].
    exists (fst answer). split; [reflexivity | exact Hr].
  - destruct Ho as (_ & Hr & Eb & _). destruct (Hg Hr) as (Hh1 & _).
    destruct Hd as (_ & _ & Ehd).
    destruct (IH request' w1 out w' Hh1 E)
      as (ss & rs & bs & Ess & Ers & Ebs & Eans & Hder & Hout).
    pose proof (loop_keeps_headers _ _ _ _ _ _ _ _ _ _ Hh1 E) as Hpre.
    exists (request' :: ss), (fst answer :: rs), (request' :: bs).
    rewrite Ess, Es, Ers, Er, Ebs, Eb, <- !app_assoc. cbn [app].
    split; [reflexivity|]. split; [reflexivity|]. split; [reflexivity|].
    split.
    { assert (Hpre0 : hdrs w `prefix_of` hdrs w') by (etransitivity; eassumption).
      rewrite answers_cons, (take_prefix _ _ Hpre0). fold answer.
      rewrite <- En.
      replace (S (length (hdrs w))) with (length (hdrs w1))
        by (rewrite Ehd, length_app; cbn; lia).
      rewrite Eans. reflexivity. }
    split.
    { intros i b Hi. destruct i as [|i].
      - injection Hi as <-. destruct (Hfrom request' Eb) as (? & ? & ?).
        exists request, (fst answer). auto.
      - exact (Hder i b Hi). }
    destruct out as [r|[]].
    + destruct Hout as (-> & -> & response & Hl & Hnr).
      split; [reflexivity|]. rewrite Er, length_app. cbn [length].
      split; [lia|]. exists response. auto.
    + destruct Hout as (-> & Hne).
      split; [symmetry; apply removelast_cons; exact Hne | discriminate].
    + destruct Hout as (-> & Hne).
      split; [symmetry; apply removelast_cons; exact Hne | discriminate].
    + destruct Hout as (-> & response & Hl & Hnr).
      split; [reflexivity|]. exists response. auto.
    + destruct Hout as (-> & response & Hl & Hnr).
      split; [reflexivity|]. exists response. auto.
  - injection E as <- <-. destruct e.
    + destruct Ho as (_ & Hr & (request' & Eb) & _).
      exists [], [fst answer], [request'].
      split; [exact Es|]. split; [exact Er|]. split; [exact Eb|].
      split; [exact (Hlast w1 Hp En)|].
      split; [exact (Hone request' Eb)|].
      split; [reflexivity | discriminate].
    + destruct Ho as (_ & Hr & (request' & Eb & _) & _).
      exists [], [fst answer], [request'].
      split; [exact Es|]. split; [exact Er|]. split; [exact Eb|].
      split; [exact (Hlast w1 Hp En)|].
      split; [exact (Hone request' Eb)|].
      split; [reflexivity | discriminate].
    + destruct Ho as (Hr & Eb & _).
      exists [], [fst answer], []. rewrite app_nil_r.
      split; [exact Es|]. split; [exact Er|]. split; [exact Eb|].
      split; [exact (Hlast w1 Hp En)|].
      split; [intros i b Hi; destruct i; discriminate|].
      split; [reflexivity|]. exists (fst answer). split; [reflexivity | exact Hr].
    + destruct Ho as (Hr & Eb & _).
      exists [], [fst answer], []. rewrite app_nil_r.
      split; [exact Es|]. split; [exact Er|]. split; [exact Eb|].
      split; [exact (Hlast w1 Hp En)|].
      split; [intros i b Hi; destruct i; discriminate|].
      split; [reflexivity|]. exists (fst answer). split; [reflexivity | exact Hr].
Qed.

(** C4 as amended: a new automatic chain with a limit [max_redirects]
    that is not negative ends for every bound above the limit. The
    responses [rs] it receives are the transport's answers to the requests
    it sends, in order; each request [bs] it derives comes from the
    request sent and the redirect received at its place. The chain fails
    with [TooManyRedirects] exactly when [max_redirects + 1] redirects
    have been received and a request derived from each of them, and the
    last of these requests is not sent. A response that is returned is the
    last one received and no redirect, every response before it was a
    redirect that was followed, and its history holds these responses, at
    most [max_redirects] of them. *)
Theorem too_many_redirects_limit (fuel : nat) (request : Request)
    (options : Options) (w : World) :
  (0 <= max_redirects)%Z ->
  (max_redirects < Z.of_nat fuel)%Z ->
  exists out w' ss rs bs,
    send max_redirects fuel request true None None options w = Some (out, w')
    /\ sent w' = sent w ++ request :: ss
    /\ resps w' = resps w ++ rs
    /\ built w' = built w ++ bs
    /\ answers options (hdrs w') (length (hdrs w)) (net w) (request :: ss)
       = (rs, net w')
    /\ (forall i b, bs !! i = Some b ->
          exists q response,
            (request :: ss) !! i = Some q /\ rs !! i = Some response
            /\ is_redirect response = true
            /\ method b = redirect_method q response
            /\ redirect_url q response = Returned (url b))
    /\ (out = Raised TooManyRedirects
        <-> Z.of_nat (length bs) = (max_redirects + 1)%Z)
    /\ match out with
       | Returned r =>
           ss = bs
           /\ (exists response,
                 resps w' !! r = Some response
                 /\ rs !! length bs = Some response
                 /\ length rs = S (length bs)
                 /\ is_redirect response = false)
           /\ exists l items,
                history_attr w' !! r = Some l /\ lists w' !! l = Some items
                /\ length items = length bs
                /\ (Z.of_nat (length items) <= max_redirects)%Z
       | Raised TooManyRedirects | Raised RedirectLoop =>
           ss = removelast bs /\ bs ≠ [] /\ length rs = length bs
       | Raised _ =>
           ss = bs
           /\ exists response,
                rs !! length bs = Some response
                /\ length rs = S (length bs)
                /\ is_redirect response = true
       end.
Proof.
  intros Hmax Hfuel. unfold send.
  destruct (send_prelude_run request None None w)
    as (w0 & -> & El & _ & Ehd & Er0 & _ & _ & En0 & Es & Eb).
  cbn [from_option id].
  assert (Hh0 : length (lists w) < length (lists w0))
    by (rewrite El, length_app; cbn; lia).
  assert (Ei : lists w0 !! length (lists w) = Some [])
    by (rewrite El; apply list_lookup_middle; reflexivity).
  destruct (auto_loop_terminates max_redirects fuel options (length (lists w))
              (length (sets w)) request w0 Hh0) as (out & w' & E).
  { rewrite Ei. cbn. lia. }
  { lia. }
  exists out, w'.
  pose proof (auto_loop_trace max_redirects fuel options (length (lists w))
                (length (sets w)) request w0 out w' Hh0) as Ht.
  rewrite Ei in Ht. cbn [from_option id length] in Ht.
  destruct (Ht Hmax E) as (bs0 & Ebs0 & Hcount). cbv zeta in Hcount.
  cbn [Nat.add] in Hcount.
  destruct (auto_loop_exchanges fuel options _ _ request w0 out w' Hh0 E)
    as (ss & rs & bs & Ess & Ers & Ebs & Eans & Hder & Hout).
  assert (bs0 = bs) as ->
    by (rewrite Ebs in Ebs0; exact (app_inv_head _ _ _ (eq_sym Ebs0))).
  pose proof (answers_length options (hdrs w') (request :: ss) (length (hdrs w0))
                (net w0)) as Hlen.
  rewrite Eans in Hlen. cbn [fst length] in Hlen.
  exists ss, rs, bs. rewrite <- Es, <- Eb, <- Ehd, <- Er0, <- En0.
  split; [exact E|]. split; [exact Ess|]. split; [exact Ers|].
  split; [exact Ebs|]. split; [exact Eans|]. split; [exact Hder|].
  destruct out as [r|[]].
  - destruct Hcount as (_ & l & items & Ha & Hl & Hn & Hle).
    destruct Hout as (-> & -> & response & Hlast & Hnr).
    split; [split; [discriminate | lia]|].
    split; [reflexivity|]. split.
    + exists response. split; [|auto].
      rewrite Ers, lookup_app_r by lia.
      replace (length (resps w0) + length bs - length (resps w0)) with (length bs)
        by lia.
      exact Hlast.
    + exists l, items. auto.
  - destruct Hcount as (_ & _ & Hn). destruct Hout as (-> & Hne).
    split; [split; [intros _; lia | reflexivity]|].
    split; [reflexivity|]. split; [exact Hne|].
    rewrite Hlen. apply length_removelast_nonempty. exact Hne.
  - destruct Hcount as (_ & _ & Hn). destruct Hout as (-> & Hne).
    split; [split; [discriminate | lia]|].
    split; [reflexivity|]. split; [exact Hne|].
    rewrite Hlen. apply length_removelast_nonempty. exact Hne.
  - destruct Hcount as (_ & Hn). destruct Hout as (-> & response & Hlast & Hr).
    split; [split; [discriminate | lia]|].
    split; [reflexivity|]. exists response. auto.
  - destruct Hcount as (_ & Hn). destruct Hout as (-> & response & Hlast & Hr).
    split; [split; [discriminate | lia]|].
    split; [reflexivity|]. exists response. auto.
Qed.

(** A chain, from any pass on, leaves what is there: the responses
    received before, their [history] attributes, and every list object but
    the accumulated history. *)
Lemma loop_frame (fuel : nat) (allow_redirects : bool) (options : Options)
    (history seen_urls : ref) :
  forall (request : Request) (w : World) (out : outcome ref) (w' : World),
  history < length (lists w) ->
  send_loop max_redirects fuel allow_redirects options history seen_urls request w
    = Some (out, w') ->
  (forall r, r < length (resps w) -> resps w' !! r = resps w !! r)
  /\ (forall r, r < length (resps w) -> history_attr w' !! r = history_attr w !! r)
  /\ (forall l, l ≠ history -> l < length (lists w) -> lists w' !! l = lists w !! l).
Proof.
  induction fuel as [|fuel IH]; intros request w out w' Hh E; [discriminate|].
  cbn [send_loop] in E.
  destruct (loop_body max_redirects allow_redirects options history seen_urls request w)
    as [o w1] eqn:Ep.
  pose proof (pass_store _ _ _ _ _ _ _ _ _ Hh Ep) as (Er & _ & _ & Ea & El & _).
  pose proof (pass_outcome _ _ _ _ _ _ _ _ _ Hh Ep) as Ho. cbv zeta in Ho.
  pose proof (pass_history_grows _ _ _ _ _ _ _ _ _ Hh Ep) as Hg.
  cbv zeta in Ea, El.
  assert (Hpass : (forall r, r < length (resps w) -> resps w1 !! r = resps w !! r)
            /\ (forall r, r < length (resps w) ->
                  history_attr w1 !! r = history_attr w !! r)
            /\ (forall l, l ≠ history -> l < length (lists w) ->
                  lists w1 !! l = lists w !! l)).
  { split; [|split].
    - intros r Hr. rewrite Er. apply lookup_app_l. exact Hr.
    - intros r Hr. rewrite Ea. apply lookup_insert_ne. lia.
    - intros l Hne Hl. rewrite El. destruct (is_redirect _).
      + rewrite lookup_app_l by (rewrite length_insert; exact Hl).
        apply list_lookup_insert_ne. congruence.
      + apply lookup_app_l. exact Hl. }
  destruct o as [[r|request']|e]; try (injection E as <- <-; exact Hpass).
  destruct Ho as (_ & Hr & _). destruct (Hg Hr) as (Hh1 & _).
  destruct (IH _ _ _ _ Hh1 E) as (H1 & H2 & H3).
  destruct Hpass as (P1 & P2 & P3).
  assert (Lr : length (resps w) < length (resps w1))
    by (rewrite Er, length_app; cbn; lia).
  assert (Ll : length (lists w) < length (lists w1)).
  { rewrite El, Hr, length_app, length_insert. cbn. lia. }
  split; [|split].
  - intros r0 Hr0. rewrite H1 by lia. apply P1. exact Hr0.
  - intros r0 Hr0. rewrite H2 by lia. apply P2. exact Hr0.
  - intros l Hne Hl. rewrite H3 by (auto; lia). apply P3; assumption.
Qed.

(** A chain, in either mode and from any pass on: it receives [n]
    responses, the first [k] of them redirects, and these are the
    responses it appends to the accumulated history, in order; the
    response number [i] gets a list object of its own, the one created
    for it, with the items of the history at that moment. *)
Lemma loop_histories (fuel : nat) (allow_redirects : bool) (options : Options)
    (history seen_urls : ref) :
  forall (request : Request) (w : World) (out : outcome ref) (w' : World)
         (items : list ref),
  lists w !! history = Some items ->
  send_loop max_redirects fuel allow_redirects options history seen_urls request w
    = Some (out, w') ->
  exists n k,
    1 <= n /\ (k = n \/ S k = n)
    /\ length (resps w') = length (resps w) + n
    /\ lists w' !! history = Some (items ++ seq (length (resps w)) k)
    /\ (forall i, i < n ->
          exists response,
            resps w' !! (length (resps w) + i) = Some response
            /\ (is_redirect response = true <-> i < k)
            /\ history_attr w' !! (length (resps w) + i) = Some (length (lists w) + i)
            /\ lists w' !! (length (lists w) + i)
               = Some (items ++ seq (length (resps w)) i))
    /\ (forall r, out = Returned r -> S r = length (resps w) + n).
Proof.
  induction fuel as [|fuel IH]; intros request w out w' items Ei E; [discriminate|].
  cbn [send_loop] in E.
  destruct (loop_body max_redirects allow_redirects options history seen_urls request w)
    as [o w1] eqn:Ep.
  pose proof (lookup_lt_Some _ _ _ Ei) as Hh.
  pose proof (pass_store _ _ _ _ _ _ _ _ _ Hh Ep) as (Er & _ & _ & Ea & El & _).
  pose proof (pass_outcome _ _ _ _ _ _ _ _ _ Hh Ep) as Ho. cbv zeta in Ho.
  pose proof (pass_history_grows _ _ _ _ _ _ _ _ _ Hh Ep) as Hg.
  cbv zeta in Ea, El. rewrite Ei in El, Hg. cbn [from_option id] in El, Hg.
  set (response := fst (dispatch_send (hdrs w) request options (net w))) in *.
  assert (Hr0 : resps w1 !! length (resps w) = Some response)
    by (rewrite Er; apply list_lookup_middle; reflexivity).
  assert (Ha0 : history_attr w1 !! length (resps w) = Some (length (lists w)))
    by (rewrite Ea; apply lookup_insert_eq).
  assert (Hl0 : lists w1 !! length (lists w) = Some items).
  { rewrite El. destruct (is_redirect response);
      apply list_lookup_middle; rewrite ?length_insert; reflexivity. }
  assert (Hend : forall o', (forall r, o' = Returned r -> r = length (resps w)) ->
            exists n k,
              1 <= n /\ (k = n \/ S k = n)
              /\ length (resps w1) = length (resps w) + n
              /\ lists w1 !! history = Some (items ++ seq (length (resps w)) k)
              /\ (forall i, i < n ->
                    exists response0,
                      resps w1 !! (length (resps w) + i) = Some response0
                      /\ (is_redirect response0 = true <-> i < k)
                      /\ history_attr w1 !! (length (resps w) + i)
                         = Some (length (lists w) + i)
                      /\ lists w1 !! (length (lists w) + i)
                         = Some (items ++ seq (length (resps w)) i))
              /\ (forall r, o' = Returned r -> S r = length (resps w) + n)).
  { intros o' Hret.
    exists 1, (if is_redirect response then 1 else 0).
    split; [lia|]. split; [destruct (is_redirect response); auto|].
    split; [rewrite Er, length_app; reflexivity|].
    split.
    { destruct (is_redirect response) eqn:Hr.
      - destruct (Hg eq_refl) as (_ & ->). reflexivity.
      - rewrite El, lookup_app_l by exact Hh. rewrite app_nil_r. exact Ei. }
    split.
    { intros i Hi. assert (i = 0) as -> by lia. rewrite !Nat.add_0_r.
      exists response. split; [exact Hr0|].
      split; [destruct (is_redirect response); split; intros; (lia || congruence)|].
      split; [exact Ha0|]. cbn [seq]. rewrite app_nil_r. exact Hl0. }
    intros r Hr. rewrite (Hret r Hr). lia. }
  destruct o as [[r|request']|e].
  - injection E as <- <-. destruct Ho as (-> & _).
    apply Hend. intros r [= <-]. reflexivity.
  - clear Hend. destruct Ho as (_ & Hr & _). destruct (Hg Hr) as (Hh1 & Ei1).
    destruct (IH request' w1 out w' _ Ei1 E)
      as (n & k & Hn & Hk & Elen & Eacc & Hall & Hret).
    destruct (loop_frame _ _ _ _ _ _ _ _ _ Hh1 E) as (F1 & F2 & F3).
    assert (Erw1 : length (resps w1) = S (length (resps w)))
      by (rewrite Er, length_app; cbn; lia).
    assert (Elw1 : length (lists w1) = S (length (lists w))).
    { rewrite El, Hr, length_app, length_insert. cbn. lia. }
    rewrite Erw1 in Elen, Eacc, Hall, Hret. rewrite Elw1 in Hall.
    exists (S n), (S k).
    split; [lia|]. split; [lia|]. split; [lia|].
    split; [rewrite Eacc, <- app_assoc; reflexivity|].
    split.
    { intros i Hi. destruct i as [|i].
      - rewrite !Nat.add_0_r. exists response.
        split; [rewrite F1 by lia; exact Hr0|].
        split; [split; [lia | intros _; exact Hr]|].
        split; [rewrite F2 by lia; exact Ha0|].
        cbn [seq]. rewrite app_nil_r.
        rewrite F3 by lia. exact Hl0.
      - destruct (Hall i ltac:(lia)) as (response0 & R1 & R2 & R3 & R4).
        rewrite <- !Nat.add_succ_comm. exists response0.
        split; [exact R1|]. split; [rewrite R2; lia|]. split; [exact R3|].
        rewrite R4, <- app_assoc. reflexivity. }
    intros r Hr'. specialize (Hret r Hr'). lia.
  - injection E as <- <-. apply Hend. intros r; discriminate.
Qed.

(** C8: the history attached to a response is a list object of its own,
    a copy of the accumulated history taken when the response was
    received. Whatever the mode, a call of [send] receives [n] responses;
    the first [k] of them, all but the last or all, are redirects, and
    these are appended to the accumulated history, in order and after the
    items that were there. The response number [i] of the call holds, in a
    list object created for it, the history as it was when the response
    was received: the items before the call and the [i] responses received
    before it. The call changes no other list object, and the histories of
    the responses in the accumulated history stay such copies. *)
Theorem history_is_a_copy (fuel : nat) (request : Request) (allow_redirects : bool)
    (history seen_urls : option ref) (options : Options)
    (w : World) (out : outcome ref) (w' : World) :
  (forall h, history = Some h -> stamped w h) ->
  send max_redirects fuel request allow_redirects history seen_urls options w
    = Some (out, w') ->
  let h := from_option id (length (lists w)) history in
  let before := match history with
                | Some h0 => default [] (lists w !! h0)
                | None => []
                end in
  let r0 := length (resps w) in
  let c0 := match history with
            | Some _ => length (lists w)
            | None => S (length (lists w))
            end in
  exists n k,
    1 <= n /\ (k = n \/ S k = n)
    /\ length (resps w') = r0 + n
    /\ lists w' !! h = Some (before ++ seq r0 k)
    /\ (forall i, i < n ->
          exists response,
            resps w' !! (r0 + i) = Some response
            /\ (is_redirect response = true <-> i < k)
            /\ history_attr w' !! (r0 + i) = Some (c0 + i)
            /\ c0 + i ≠ h
            /\ lists w' !! (c0 + i) = Some (before ++ seq r0 i))
    /\ (forall r, out = Returned r -> S r = r0 + n)
    /\ stamped w' h
    /\ (forall l x, l ≠ h -> lists w !! l = Some x -> lists w' !! l = Some x).
Proof.
  intros Hst E h before r0 c0. unfold send in E.
  assert (Hh : forall h0, history = Some h0 -> h0 < length (lists w)).
  { intros h0 E0. destruct (Hst h0 E0) as (x & Hx & _).
    exact (lookup_lt_Some _ _ _ Hx). }
  destruct (send_prelude_run request history seen_urls w)
    as (w0 & Ep & El & _ & _ & Er & Ea & _).
  rewrite Ep in E. fold h in E.
  assert (Ei : lists w0 !! h = Some before).
  { rewrite El. unfold h, before. destruct history as [h0|]; cbn.
    - destruct (lookup_lt_is_Some_2 _ _ (Hh h0 eq_refl)) as [x ->]. reflexivity.
    - apply list_lookup_middle. reflexivity. }
  assert (Hst0 : stamped w0 h).
  { exists before. split; [exact Ei|]. unfold h, before in *.
    destruct history as [h0|]; cbn.
    - destruct (Hst h0 eq_refl) as (x & Hx & Hall). rewrite Hx. cbn.
      rewrite Er, Ea, El. exact Hall.
    - intros i r Hi. destruct i; discriminate. }
  assert (Ec : length (lists w0) = c0).
  { rewrite El. unfold c0. destruct history; [reflexivity|].
    rewrite length_app. cbn. lia. }
  assert (Hc : h < c0).
  { unfold h, c0. destruct history as [h0|]; cbn; [auto | lia]. }
  destruct (loop_stamped _ _ _ _ _ _ _ _ _ _ _ Hst0 Ei E) as (Hst' & _ & Hold).
  destruct (loop_histories _ _ _ _ _ _ _ _ _ _ Ei E)
    as (n & k & Hn & Hk & Elen & Eacc & Hall & Hret).
  rewrite Er, Ec in *. fold r0 in Elen, Eacc, Hall, Hret.
  exists n, k. repeat (split; [assumption|]).
  split.
  { intros i Hi. destruct (Hall i Hi) as (response & R1 & R2 & R3 & R4).
    exists response. repeat (split; [assumption|]). split; [lia | exact R4]. }
  split; [exact Hret|]. split; [exact Hst'|].
  intros l x Hne Hl. apply Hold; [exact Hne|]. rewrite El.
  destruct history; [exact Hl|].
  rewrite lookup_app_l by exact (lookup_lt_Some _ _ _ Hl). exact Hl.
Qed.

End Chains.

(** * The theorems at work on the implementation of the collaborators *)

Section Examples.
Import PyLib.

Ltac by_tag E := apply (f_equal run_tag) in E; vm_compute in E; discriminate.

(** The first example of the specification: POST answered by 301 to the
    same origin becomes GET without body and keeps Authorization. *)
Example post_301_same_origin :
  match build_redirect_request post_x (redirect 301 "http://a.example/y")
          (start (T:=plain_site) tt [credentials]) with
  | (Returned next, w') =>
      method next = "GET" /\ url next = "http://a.example/y"
      /\ body next = Bytes [] /\ hdrs w' !! headers next = Some credentials
  | _ => False
  end.
Proof. vm_compute. repeat split. Qed.

(** The second example: POST answered by 307 to another origin stays POST
    with its body and loses Authorization. *)
Example post_307_cross_origin :
  match build_redirect_request post_x (redirect 307 "http://b.example/y")
          (start (T:=plain_site) tt [credentials]) with
  | (Returned next, w') =>
      method next = "POST" /\ url next = "http://b.example/y"
      /\ body next = Bytes (list_byte_of_string "data")
      /\ hdrs w' !! headers next = Some [("Accept", "*/*")]
  | _ => False
  end.
Proof. vm_compute. repeat split. Qed.


Lemma redirect_headers_frame_witness :
  exists h',
    fst (redirect_headers post_x "http://b.example/y"
           (start (T:=plain_site) tt [credentials])) = Returned h'
    /\ h' ≠ headers post_x
    /\ hdrs (snd (redirect_headers post_x "http://b.example/y"
                    (start (T:=plain_site) tt [credentials])))
         !! headers post_x = Some credentials
    /\ (forall h old,
          hdrs (start (T:=plain_site) tt [credentials]) !! h = Some old ->
          h' ≠ h
          /\ hdrs (snd (redirect_headers post_x "http://b.example/y"
                          (start (T:=plain_site) tt [credentials]))) !! h
             = Some old).
Proof.
  exact (redirect_headers_frame (T:=plain_site) post_x "http://b.example/y"
           (start (T:=plain_site) tt [credentials]) credentials eq_refl).
Defined.

(** A HEAD request with a streaming body answered by 303: the method
    stays HEAD, so the body would have to be sent again. *)
Lemma streaming_head_under_303 :
  let request := request_to "HEAD" "http://a.example/x" Streaming in
  let response := redirect 303 "http://a.example/y" in
  is_streaming request = true
  /\ redirect_method request response = "HEAD"
  /\ redirect_body request (redirect_method request response)
     = Raised RedirectBodyUnavailable
  /\ redirect_body request (redirect_method request response) ≠ Returned [].
Proof. vm_compute. repeat split. discriminate. Qed.

(** A POST request with a streaming body: refused under 307, sent on as a
    GET without body under 303. *)
Example streaming_post_307_303 :
  let request := request_to "POST" "http://a.example/x" Streaming in
  redirect_body request (redirect_method request (redirect 307 "/y"))
    = Raised RedirectBodyUnavailable
  /\ redirect_body request (redirect_method request (redirect 303 "/y"))
     = Returned [].
Proof. vm_compute. repeat split. Qed.

Lemma redirect_url_branches_witness :
  let target := redirect_target post_x "/y?q=1" in
  (netloc target = "" ->
     redirect_url post_x (redirect 302 "/y?q=1")
     = Returned (requote_then_resolve post_x target))
  /\ (netloc target ≠ "" ->
     redirect_url post_x (redirect 302 "/y?q=1")
     = Returned (URL_new (requote_uri (geturl target)))).
Proof.
  exact (redirect_url_branches post_x (redirect 302 "/y?q=1") "/y?q=1" eq_refl).
Defined.

(** A target whose escapes hide dot segments: the code decodes them
    before it resolves, so the segments take effect; resolving first and
    re-encoding afterwards would leave them in the path. *)
Lemma requote_before_resolve :
  let request := request_to "GET" "http://a.example/b/c/d" (Bytes []) in
  let target := redirect_target request "%2E%2E/z" in
  netloc target = ""
  /\ redirect_url request (redirect 302 "%2E%2E/z") = Returned "http://a.example/b/z"
  /\ resolve_then_requote request target = "http://a.example/b/c/../z"
  /\ redirect_url request (redirect 302 "%2E%2E/z")
     ≠ Returned (resolve_then_requote request target).
Proof. vm_compute. repeat split. discriminate. Qed.

Lemma too_many_redirects_limit_witness :
  let request := request_to "GET" "http://a.example/1" (Bytes []) in
  let w := start (T:=long_site) tt [credentials] in
  exists out w' ss rs bs,
    send (T:=long_site) 1 5 request true None None tt w = Some (out, w')
    /\ sent w' = sent w ++ request :: ss
    /\ resps w' = resps w ++ rs
    /\ built w' = built w ++ bs
    /\ answers (T:=long_site) tt (hdrs w') (length (hdrs w)) (net w) (request :: ss)
       = (rs, net w')
    /\ (forall i b, bs !! i = Some b ->
          exists q response,
            (request :: ss) !! i = Some q /\ rs !! i = Some response
            /\ is_redirect response = true
            /\ method b = redirect_method q response
            /\ redirect_url q response = Returned (url b))
    /\ (out = Raised TooManyRedirects <-> Z.of_nat (length bs) = (1 + 1)%Z)
    /\ match out with
       | Returned r =>
           ss = bs
           /\ (exists response,
                 resps w' !! r = Some response
                 /\ rs !! length bs = Some response
                 /\ length rs = S (length bs)
                 /\ is_redirect response = false)
           /\ exists l items,
                history_attr w' !! r = Some l /\ lists w' !! l = Some items
                /\ length items = length bs
                /\ (Z.of_nat (length items) <= 1)%Z
       | Raised TooManyRedirects | Raised RedirectLoop =>
           ss = removelast bs /\ bs ≠ [] /\ length rs = length bs
       | Raised _ =>
           ss = bs
           /\ exists response,
                rs !! length bs = Some response
                /\ length rs = S (length bs)
                /\ is_redirect response = true
       end.
Proof.
  intros request w.
  apply (too_many_redirects_limit (T:=long_site) 1 5 request tt w); lia.
Defined.

(** Two chains outside the limit rule as the specification words it.
    With the limit -2 a page that answers at once is returned with an
    empty history, and 0 is more than the limit plus one. With the limit
    0 and an upload that cannot be replayed, answered by 307: the one
    response is a redirect, so a first hop would be required, and the
    chain fails with [RedirectBodyUnavailable], not with
    [TooManyRedirects]. *)
Lemma negative_limit_and_unavailable_body :
  match send (T:=plain_site) (-2) 5 get_x true None None tt
          (start (T:=plain_site) tt [credentials]) with
  | Some (Returned r, w') =>
      match history_attr w' !! r with
      | Some l =>
          exists items,
            lists w' !! l = Some items
            /\ (-2 + 1 < Z.of_nat (length items))%Z
      | None => False
      end
  | _ => False
  end
  /\ match send (T:=moved_site) 0 5 stream_x true None None tt
            (start (T:=moved_site) tt [credentials]) with
     | Some (out, w') =>
         out = Raised RedirectBodyUnavailable
         /\ out ≠ Raised TooManyRedirects
         /\ is_redirect <$> resps w' = [true]
         /\ url <$> sent w' = ["http://a.example/x"]
     | None => False
     end.
Proof.
  split.
  - vm_compute. eexists. split; reflexivity.
  - vm_compute. repeat split. discriminate.
Qed.

(** With limit 1 on three redirects in a row: two requests are sent, the
    third is derived and refused. *)
Example limit_one_of_three :
  match send (T:=long_site) 1 5 (request_to "GET" "http://a.example/1" (Bytes []))
          true None None tt
          (start (T:=long_site) tt [credentials]) with
  | Some (out, w') =>
      out = Raised TooManyRedirects
      /\ url <$> sent w' = ["http://a.example/1"; "http://a.example/2"]
      /\ url <$> built w' = ["http://a.example/2"; "http://a.example/3"]
  | None => False
  end.
Proof. vm_compute. repeat split. Qed.



Lemma history_is_a_copy_witness :
  let w := start (T:=chain_site) tt [credentials] in
  match send (T:=chain_site) 5 9 post_x true None None tt w with
  | Some (out, w') =>
      let h := length (lists w) in
      let before : list nat := [] in
      let r0 := length (resps w) in
      let c0 := S (length (lists w)) in
      exists n k,
        1 <= n /\ (k = n \/ S k = n)
        /\ length (resps w') = r0 + n
        /\ lists w' !! h = Some (before ++ seq r0 k)
        /\ (forall i, i < n ->
              exists response,
                resps w' !! (r0 + i) = Some response
                /\ (is_redirect response = true <-> i < k)
                /\ history_attr w' !! (r0 + i) = Some (c0 + i)
                /\ c0 + i ≠ h
                /\ lists w' !! (c0 + i) = Some (before ++ seq r0 i))
        /\ (forall r, out = Returned r -> S r = r0 + n)
        /\ stamped w' h
        /\ (forall l x, l ≠ h -> lists w !! l = Some x -> lists w' !! l = Some x)
  | None => False
  end.
Proof.
  intros w.
  destruct (send (T:=chain_site) 5 9 post_x true None None tt w)
    as [[out w']|] eqn:E; [|by_tag E].
  apply (history_is_a_copy (T:=chain_site) 5 9 post_x true None None tt w out w');
    [intros h H; discriminate H | exact E].
Defined.

(** The same chain by hand and automatically: the accumulated history
    [[0; 1]] and the copies [[]], [[0]], [[0; 1]] of the three responses. *)
Example chain_histories :
  match send (T:=chain_site) 5 9 post_x true None None tt
          (start (T:=chain_site) tt [credentials]) with
  | Some (out, w') =>
      out = Returned 2 /\ lists w' = [[0; 1]; []; [0]; [0; 1]]
      /\ history_attr w' !! 0 = Some 1 /\ history_attr w' !! 1 = Some 2
      /\ history_attr w' !! 2 = Some 3
      /\ method <$> sent w' = ["POST"; "GET"; "GET"]
  | None => False
  end.
Proof. vm_compute. repeat split. Qed.



End Examples.

(** * The further properties at work *)

Section FurtherExamples.
Import PyLib.

Ltac by_run_tag E := apply (f_equal run_tag) in E; vm_compute in E; discriminate.

Lemma redirect_method_other_status_witness :
  redirect_method post_x (redirect 307 "/y") = method post_x.
Proof.
  apply (redirect_method_other_status post_x (redirect 307 "/y")); discriminate.
Defined.

Lemma redirect_method_drops_post_witness :
  redirect_method post_x (redirect 302 "/y") ≠ "POST".
Proof.
  apply (redirect_method_drops_post post_x (redirect 302 "/y")).
  right. left. reflexivity.
Defined.

Lemma redirect_method_settles_witness :
  redirect_method get_x (redirect 301 "/y") = method get_x.
Proof.
  apply (redirect_method_settles post_x get_x (redirect 301 "/y")). reflexivity.
Defined.

Lemma manual_call_sends_once_witness :
  exists out w',
    send (T:=chain_site) 5 1 post_x false None None tt
      (start (T:=chain_site) tt [credentials]) = Some (out, w')
    /\ sent w' = sent (start (T:=chain_site) tt [credentials]) ++ [post_x]
    /\ out ≠ Raised TooManyRedirects /\ out ≠ Raised RedirectLoop.
Proof.
  apply (manual_call_sends_once (T:=chain_site) 5 0 post_x None None tt
           (start (T:=chain_site) tt [credentials])).
  intros h H. discriminate H.
Defined.

Lemma send_without_redirect_witness :
  exists w',
    send (T:=plain_site) 5 1 post_x true None None tt
      (start (T:=plain_site) tt [credentials])
      = Some (Returned (length (resps (start (T:=plain_site) tt [credentials]))), w')
    /\ send (T:=plain_site) 5 1 post_x (negb true) None None tt
         (start (T:=plain_site) tt [credentials])
       = Some (Returned (length (resps (start (T:=plain_site) tt [credentials]))), w')
    /\ sent w' = sent (start (T:=plain_site) tt [credentials]) ++ [post_x]
    /\ built w' = built (start (T:=plain_site) tt [credentials])
    /\ next_attr w' = next_attr (start (T:=plain_site) tt [credentials]).
Proof.
  apply (send_without_redirect (T:=plain_site) 5 0 true post_x None None tt
           (start (T:=plain_site) tt [credentials])).
  reflexivity.
Defined.

Lemma send_keeps_headers_objects_witness :
  match send (T:=chain_site) 5 9 post_x true None None tt
          (start (T:=chain_site) tt [credentials]) with
  | Some (out, w') =>
      forall h lines,
        hdrs (start (T:=chain_site) tt [credentials]) !! h = Some lines ->
        hdrs w' !! h = Some lines
  | None => False
  end.
Proof.
  destruct (send (T:=chain_site) 5 9 post_x true None None tt
              (start (T:=chain_site) tt [credentials]))
    as [[out w']|] eqn:E; [|by_run_tag E].
  apply (send_keeps_headers_objects (T:=chain_site) 5 9 post_x true None None tt
           (start (T:=chain_site) tt [credentials]) out w');
    [intros h H; discriminate H | exact E].
Defined.

Lemma automatic_call_attaches_nothing_witness :
  match send (T:=chain_site) 5 9 post_x true None None tt
          (start (T:=chain_site) tt [credentials]) with
  | Some (out, w') => next_attr w' = next_attr (start (T:=chain_site) tt [credentials])
  | None => False
  end.
Proof.
  destruct (send (T:=chain_site) 5 9 post_x true None None tt
              (start (T:=chain_site) tt [credentials]))
    as [[out w']|] eqn:E; [|by_run_tag E].
  apply (automatic_call_attaches_nothing (T:=chain_site) 5 9 post_x None None tt
           (start (T:=chain_site) tt [credentials]) out w');
    [intros h H; discriminate H | exact E].
Defined.

Lemma visited_set_covers_sent_witness :
  match send (T:=chain_site) 5 9 post_x true None None tt
          (start (T:=chain_site) tt [credentials]) with
  | Some (out, w') =>
      let s := length (sets (start (T:=chain_site) tt [credentials])) in
      let before : gset URL := ∅ in
      exists ss,
        sent w' = sent (start (T:=chain_site) tt [credentials]) ++ post_x :: ss
        /\ before ⊆ default ∅ (sets w' !! s)
        /\ forall q, q ∈ post_x :: ss -> url q ∈ default ∅ (sets w' !! s)
  | None => False
  end.
Proof.
  destruct (send (T:=chain_site) 5 9 post_x true None None tt
              (start (T:=chain_site) tt [credentials]))
    as [[out w']|] eqn:E; [|by_run_tag E].
  apply (visited_set_covers_sent (T:=chain_site) 5 9 post_x true None None tt
           (start (T:=chain_site) tt [credentials]) out w');
    [intros h H; discriminate H | intros s H; discriminate H | exact E].
Defined.

Lemma body_unavailable_only_at_first_witness :
  match send (T:=moved_site) 5 9 stream_x true None None tt
          (start (T:=moved_site) tt [credentials]) with
  | Some (Raised RedirectBodyUnavailable, w') =>
      is_streaming stream_x = true
      /\ sent w' = sent (start (T:=moved_site) tt [credentials]) ++ [stream_x]
      /\ built w' = built (start (T:=moved_site) tt [credentials])
  | _ => False
  end.
Proof.
  destruct (send (T:=moved_site) 5 9 stream_x true None None tt
              (start (T:=moved_site) tt [credentials]))
    as [[[r|e] w']|] eqn:E; [by_run_tag E | | by_run_tag E].
  destruct e; try by_run_tag E.
  apply (body_unavailable_only_at_first (T:=moved_site) 5 9 stream_x true None None tt
           (start (T:=moved_site) tt [credentials]) w');
    [intros h H; discriminate H | exact E].
Defined.

Lemma automatic_chain_sends_bounded_witness :
  match send (T:=long_site) 1 9 (request_to "GET" "http://a.example/1" (Bytes []))
          true None None tt (start (T:=long_site) tt [credentials]) with
  | Some (out, w') =>
      exists ss,
        sent w' = sent (start (T:=long_site) tt [credentials]) ++ ss
        /\ 1 <= length ss /\ (Z.of_nat (length ss) <= 1 + 1)%Z
        /\ (forall r, out = Returned r ->
            exists l items,
              history_attr w' !! r = Some l /\ lists w' !! l = Some items
              /\ length ss = length items + 1)
  | None => False
  end.
Proof.
  destruct (send (T:=long_site) 1 9 (request_to "GET" "http://a.example/1" (Bytes []))
              true None None tt (start (T:=long_site) tt [credentials]))
    as [[out w']|] eqn:E; [|by_run_tag E].
  apply (automatic_chain_sends_bounded (T:=long_site) 1 9
           (request_to "GET" "http://a.example/1" (Bytes [])) tt
           (start (T:=long_site) tt [credentials]) out w'); [lia | exact E].
Defined.

Lemma redirect_loop_within_limit_witness :
  match send (T:=self_site) 5 9 get_x true None None tt
          (start (T:=self_site) tt [credentials]) with
  | Some (Raised RedirectLoop, w') =>
      exists bs,
        built w' = built (start (T:=self_site) tt [credentials]) ++ bs /\ bs ≠ []
        /\ (Z.of_nat (length bs) <= 5)%Z /\ (0 < 5)%Z
  | _ => False
  end.
Proof.
  destruct (send (T:=self_site) 5 9 get_x true None None tt
              (start (T:=self_site) tt [credentials]))
    as [[[r|e] w']|] eqn:E; [by_run_tag E | | by_run_tag E].
  destruct e; try by_run_tag E.
  apply (redirect_loop_within_limit (T:=self_site) 5 9 get_x tt
           (start (T:=self_site) tt [credentials]) w'); [lia | exact E].
Defined.

Lemma authorization_stays_with_origin_witness :
  let w := start (T:=chain_site) tt [credentials] in
  match send (T:=chain_site) 5 9 post_x true None None tt w with
  | Some (out, w') =>
      exists ss,
        sent w' = sent w ++ post_x :: ss
        /\ (carries_authorization w' post_x <-> carries_authorization w post_x)
        /\ forall i j qi qj,
             (post_x :: ss) !! i = Some qi -> (post_x :: ss) !! j = Some qj ->
             i <= j -> carries_authorization w' qj ->
             carries_authorization w' qi
             /\ url_origin (url qj) = url_origin (url qi)
  | None => False
  end.
Proof.
  intros w.
  destruct (send (T:=chain_site) 5 9 post_x true None None tt w)
    as [[out w']|] eqn:E; [|by_run_tag E].
  apply (authorization_stays_with_origin (T:=chain_site) 5 9 post_x true None None tt
           w out w');
    [intros h H; discriminate H | cbn; lia | exact E].
Defined.

(** The chain of two redirects: the request to the first origin still
    has the header, the one to the other origin has not. *)
Example credentials_along_the_chain :
  match send (T:=chain_site) 5 9 post_x true None None tt
          (start (T:=chain_site) tt [credentials]) with
  | Some (out, w') =>
      (fun q => (url q, Headers_getitem (default [] (hdrs w' !! headers q))
                          "Authorization")) <$> sent w'
      = [("http://a.example/x", Some "Basic dXNlcjpwdw==");
         ("http://a.example/y", Some "Basic dXNlcjpwdw==");
         ("http://b.example/z", None)]
  | None => False
  end.
Proof. vm_compute. reflexivity. Qed.

(** A redirect to another origin and back: the header is gone at the
    other origin and stays away on the way back. *)
Example credentials_do_not_come_back :
  match send (T:=return_site) 5 9 get_x true None None tt
          (start (T:=return_site) tt [credentials]) with
  | Some (out, w') =>
      (fun q => (url q, Headers_getitem (default [] (hdrs w' !! headers q))
                          "Authorization")) <$> sent w'
      = [("http://a.example/x", Some "Basic dXNlcjpwdw==");
         ("http://b.example/y", None);
         ("http://a.example/z", None)]
  | None => False
  end.
Proof. vm_compute. reflexivity. Qed.

Lemma resume_follows_redirects_witness :
  match send (T:=chain_site) 5 9 post_x true None None tt
          (start (T:=chain_site) tt [credentials]) with
  | Some (out, w_a) =>
      exists r w1 p w_m,
        send (T:=chain_site) 5 1 post_x false None None tt
          (start (T:=chain_site) tt [credentials]) = Some (Returned r, w1)
        /\ next_attr w1 !! r = Some p
        /\ sent w_a !! S (length (sent (start (T:=chain_site) tt [credentials])))
           = Some (p_request p)
        /\ call_next (T:=chain_site) 5 8 p true w1 = Some (out, w_m)
        /\ forget_next w_m = forget_next w_a
  | None => False
  end.
Proof.
  destruct (send (T:=chain_site) 5 9 post_x true None None tt
              (start (T:=chain_site) tt [credentials]))
    as [[out w_a]|] eqn:E; [|by_run_tag E].
  apply (resume_follows_redirects (T:=chain_site) 5 8 post_x tt
           (start (T:=chain_site) tt [credentials]) out w_a E).
  assert (Hlen : match send (T:=chain_site) 5 9 post_x true None None tt
                         (start (T:=chain_site) tt [credentials]) with
                 | Some (_, w) => length (sent w)
                 | None => 0
                 end = 3) by (vm_compute; reflexivity).
  rewrite E in Hlen. change (length (sent w_a) = 3) in Hlen.
  rewrite Hlen. cbn. lia.
Defined.

Lemma automatic_call_ends_witness :
  exists out w',
    send (T:=self_site) 5 6 get_x true None None tt
      (start (T:=self_site) tt [credentials]) = Some (out, w').
Proof.
  apply (automatic_call_ends (T:=self_site) 5 6 get_x None None tt
           (start (T:=self_site) tt [credentials]));
    [intros h H; discriminate H | cbn; lia | lia].
Defined.

End FurtherExamples.
